(** * thankunext: routes of a Next.js site from its _buildManifest.js

    A shallow embedding of [thankunext.py] and the properties of its
    pipeline: the scheme check, the two HTTP fetches, the two regular
    expression extractions and the final report.

    Conventions of the embedding.
    - A Python [str] is a [string]; one [ascii] stands for one code point
      in the range U+0000 to U+00FF.
    - [re.search] and [re.findall] are embedded for the fragment of the
      pattern language the program uses (literal runs, a greedy one-or-more
      of a character set, concatenation, one capturing group), as a
      backtracking matcher.
    - [requests.get] and [print] are effects: a computation runs in a world
      that answers requests and appends to a trace of events. *)

From Stdlib Require Import Ascii String NArith.
From stdpp Require Import gmap strings list sets.

(** ** Python strings *)

Module Py.

(** The line feed, Python's ['\n']. *)
Definition LF : ascii := "010"%char.

(** The double quote character. *)
Definition DQ : ascii := "034"%char.

(** The one-character string ['\n']. *)
Definition newline : string := String LF EmptyString.

(** [s.startswith(p)]. *)
Definition startswith (s p : string) : bool := String.prefix p s.

(** [sep.join(l)]. *)
Definition join (sep : string) (l : list string) : string := String.concat sep l.

(** Truth value of something that is [None] or a [str], as tested by
    [if not x]: [None] and the empty string are false. *)
Definition truthy (x : option string) : bool :=
  match x with
  | None => false
  | Some EmptyString => false
  | Some (String _ _) => true
  end.

(** Every character of [s] satisfies [cls]. *)
Fixpoint all_chars (cls : ascii -> bool) (s : string) : bool :=
  match s with
  | EmptyString => true
  | String c s' => cls c && all_chars cls s'
  end.

(** Some character of [s] satisfies [cls]. *)
Fixpoint some_char (cls : ascii -> bool) (s : string) : bool :=
  match s with
  | EmptyString => false
  | String c s' => cls c || some_char cls s'
  end.

(** The first [n] characters of [s], Python's [s[:n]]. *)
Definition take (n : nat) (s : string) : string := String.substring 0 n s.

End Py.

(** ** The fragment of Python's [re] module the program uses *)

Module Re.

(** Patterns. [Str] is a run of ordinary (or escaped) characters, [Plus cls]
    is [[...]+] for the character set [cls], greedy; [Group] is a pair of
    capturing parentheses.  The patterns of the program have at most one
    group, so a match records at most one captured text. *)
Inductive regex : Type :=
| Str (lit : string)
| Plus (cls : ascii -> bool)
| Cat (r1 r2 : regex)
| Group (r : regex).

(** [eat lit s]: what is left of [s] after the literal [lit], if [s] starts
    with it. *)
Fixpoint eat (lit s : string) : option string :=
  match lit, s with
  | EmptyString, _ => Some s
  | String c lit', String d s' => if Ascii.eqb c d then eat lit' s' else None
  | String _ _, EmptyString => None
  end.

(** Greedy one-or-more with backtracking: take one character of the set,
    then try first to take more; when the rest of the pattern ([k]) fails
    after the longer run, give the last character back and try [k] here. *)
Fixpoint plus {R : Type} (cls : ascii -> bool) (k : string -> option R)
    (s : string) : option R :=
  match s with
  | EmptyString => None
  | String c s' =>
      if cls c then
        match plus cls k s' with
        | Some r => Some r
        | None => k s'
        end
      else None
  end.

(** The text of [s] consumed when [rest] is what is left of it. *)
Definition consumed (s rest : string) : string :=
  Py.take (String.length s - String.length rest) s.

(** The matcher, in continuation-passing style: [k] is the rest of the
    pattern, called with the remaining text and the text captured so far. *)
Fixpoint rmatch {R : Type} (r : regex) (s : string) (g : option string)
    (k : string -> option string -> option R) : option R :=
  match r with
  | Str lit =>
      match eat lit s with
      | Some s' => k s' g
      | None => None
      end
  | Plus cls => plus cls (fun s' => k s' g) s
  | Cat r1 r2 => rmatch r1 s g (fun s1 g1 => rmatch r2 s1 g1 k)
  | Group r1 => rmatch r1 s g (fun s1 _ => k s1 (Some (consumed s s1)))
  end.

(** A match object: the whole matched text ([m.group()]) and the text of
    group 1 when the pattern has a group. *)
Record Match : Type := mkMatch { group0 : string; group1 : option string }.

(** [pattern.match(s)]: a match that starts at the first character of [s]. *)
Definition match_at (r : regex) (s : string) : option Match :=
  rmatch r s None (fun rest g => Some (mkMatch (consumed s rest) g)).

(** [re.search(r, s)]: the match at the leftmost position that has one. *)
Fixpoint search (r : regex) (s : string) : option Match :=
  match match_at r s with
  | Some m => Some m
  | None =>
      match s with
      | EmptyString => None
      | String _ s' => search r s'
      end
  end.

(** What [re.findall] lists for a match: the text of the group when the
    pattern has one, the whole match otherwise. *)
Definition item (m : Match) : string :=
  match group1 m with
  | Some g => g
  | None => group0 m
  end.

(** [re.findall(r, s)], scanning [s] from left to right.  [skip] counts the
    characters still covered by the last match: no match starts there, so
    matches do not overlap. *)
Fixpoint findall_from (r : regex) (skip : nat) (s : string) : list string :=
  match skip with
  | S n =>
      match s with
      | EmptyString => []
      | String _ s' => findall_from r n s'
      end
  | O =>
      match match_at r s with
      | Some m =>
          item m ::
          match s with
          | EmptyString => []
          | String _ s' => findall_from r (String.length (group0 m) - 1) s'
          end
      | None =>
          match s with
          | EmptyString => []
          | String _ s' => findall_from r 0 s'
          end
      end
  end.

Definition findall (r : regex) (s : string) : list string := findall_from r 0 s.

(** Does [s] start with a character of the set? *)
Definition starts_in (cls : ascii -> bool) (s : string) : bool :=
  match s with
  | EmptyString => false
  | String c _ => cls c
  end.

End Re.

(** ** Effects: HTTP requests and standard output *)

(** What [requests.get(url, headers=...)], [raise_for_status()] and [.text]
    give together: the body of a response whose status is no error, a
    [requests.RequestException] (a transport failure or an error status)
    with its message, or an exception of another class (one that the
    library raises before any request leaves, for an address it cannot
    parse, is such a one) with its message. *)
Inductive outcome : Type :=
| Body (text : string)
| RequestException (e : string)
| OtherException (e : string).

(** How a call ends: it returns a value, or an exception leaves it. *)
Inductive completion (A : Type) : Type :=
| Returned (a : A)
| Raised (e : string).

Arguments Returned {A} a.
Arguments Raised {A} e.

Definition headers : Type := list (string * string).

(** The world a run lives in: the answers of the network, and the order in
    which a set of strings is enumerated (Python's sets are unordered; the
    order is some arrangement of the elements). *)
Record World : Type := mkWorld {
  requests_get : string -> headers -> outcome;
  set_iter : gset string -> list string;
  set_iter_perm : forall X : gset string, set_iter X ≡ₚ elements X
}.

(** What a run does that can be observed from outside: [Request] is a call
    of [requests.get] (however it ends), [Stdout] a write to standard
    output. *)
Inductive event : Type :=
| Request (url : string) (hdrs : headers)
| Stdout (text : string).

(** Computations: read the world, extend the trace. *)
Definition IO (A : Type) : Type := World -> list event -> A * list event.

#[global] Instance IO_ret : MRet IO := fun A (a : A) _ t => (a, t).

#[global] Instance IO_bind : MBind IO :=
  fun A B (f : A -> IO B) (m : IO A) w t => let (a, t') := m w t in f a w t'.

(** [print(s)]: the text and a line feed go to standard output. *)
Definition print (s : string) : IO unit :=
  fun _ t => (tt, t ++ [Stdout (s +:+ Py.newline)]).

(** The request is recorded and the world answers it. *)
Definition http_get (url : string) (hdrs : headers) : IO outcome :=
  fun w t => (requests_get w url hdrs, t ++ [Request url hdrs]).

(** Enumeration of a set, as [join] does over [paths]. *)
Definition iterate (X : gset string) : IO (list string) :=
  fun w t => (set_iter w X, t).

(** The trace of a whole run. *)
Definition run {A : Type} (w : World) (m : IO A) : list event := snd (m w []).

(** Everything written to standard output, in order. *)
Fixpoint stdout (t : list event) : string :=
  match t with
  | [] => EmptyString
  | Stdout text :: t' => text +:+ stdout t'
  | Request _ _ :: t' => stdout t'
  end.

(** The requests made, in order. *)
Fixpoint requests (t : list event) : list string :=
  match t with
  | [] => []
  | Request url _ :: t' => url :: requests t'
  | Stdout _ :: t' => requests t'
  end.

(** ** The program *)

Module ThankUNext.

Import Re.

(** Code point within an inclusive range. *)
Definition between (lo hi : N) (c : ascii) : bool :=
  let n := N_of_ascii c in (lo <=? n)%N && (n <=? hi)%N.

Definition is_char (d c : ascii) : bool := Ascii.eqb d c.

(** [a-zA-Z0-9]. *)
Definition ascii_alnum (c : ascii) : bool :=
  between 97 122 c || between 65 90 c || between 48 57 c.

(** [\w] in a [str] pattern: the alphanumeric characters of Unicode and the
    underscore.  Below U+0100 the alphanumerics outside ASCII are the
    ordinal indicators, the superscript digits, the micro sign, the vulgar
    fractions and the accented letters. *)
Definition word (c : ascii) : bool :=
  ascii_alnum c || is_char "_" c
  || is_char "170" c || between 178 179 c || is_char "181" c
  || between 185 186 c || between 188 190 c
  || between 192 214 c || between 216 246 c || between 248 255 c.

(** The set [[\w-]]. *)
Definition token_char (c : ascii) : bool := word c || is_char "-" c.

(** The set [[a-zA-Z0-9_/\[\]\.-]]. *)
Definition route_char (c : ascii) : bool :=
  ascii_alnum c || is_char "_" c || is_char "/" c || is_char "[" c
  || is_char "]" c || is_char "." c || is_char "-" c.

Definition manifest_prefix : string := "/_next/static/".
Definition manifest_suffix : string := "/_buildManifest.js".

(** [r'(?m)/_next/static/[\w-]+/_buildManifest\.js']; the flag [(?m)]
    changes the anchors only, and the pattern has none. *)
Definition manifest_pattern : regex :=
  Cat (Str manifest_prefix) (Cat (Plus token_char) (Str manifest_suffix)).

Definition quote : string := String Py.DQ EmptyString.

(** The pattern of [parse_build_manifest_content]: a double quote, the group
    [(/[a-zA-Z0-9_/\[\]\.-]+)], a double quote. *)
Definition route_pattern : regex :=
  Cat (Str quote) (Cat (Group (Cat (Str "/") (Plus route_char))) (Str quote)).

Definition scheme_message : string :=
  "Please include the protocol (http:// or https://) in the URL.".

Definition not_found_message : string :=
  "_buildManifest.js wasn't found. Is this site really running Next.js?".

Definition user_agent : headers := [("user-agent", "thankunext/1.0")].

Definition parse_url (url : string) : IO (option string) :=
  if negb (Py.startswith url "http://") && negb (Py.startswith url "https://")
  then print scheme_message ;; mret None
  else mret (Some url).

(** The [try] catches [requests.RequestException] only: an exception of
    another class leaves the function. *)
Definition get_page_content (url : string) : IO (completion (option string)) :=
  response ← http_get url user_agent ;
  match response with
  | Body text => mret (Returned (Some text))
  | RequestException e =>
      print ("Error when accessing the URL: " +:+ e) ;; mret (Returned None)
  | OtherException e => mret (Raised e)
  end.

Definition get_build_manifest_path (body_content : string) : option string :=
  match search manifest_pattern body_content with
  | Some m => Some (group0 m)
  | None => None
  end.

Definition get_build_manifest_content (build_manifest_url : string)
    : IO (completion (option string)) :=
  response ← http_get build_manifest_url user_agent ;
  match response with
  | Body text => mret (Returned (Some text))
  | RequestException e =>
      print ("Error accessing buildManifest content: " +:+ e) ;;
      mret (Returned None)
  | OtherException e => mret (Raised e)
  end.

Definition parse_build_manifest_content (build_manifest_content : string)
    : gset string :=
  list_to_set (findall route_pattern build_manifest_content).

(** [start], from the parsed command line on: [arg_url] is [args.url].
    Each early [return] is the [then] branch of its test; past a test the
    variable holds a string, read here with [default].  [start] catches
    nothing: an exception that leaves a fetcher leaves [start] at once. *)
Definition start (arg_url : string) : IO (completion unit) :=
  url ← parse_url arg_url ;
  if negb (Py.truthy url) then mret (Returned tt) else
  let url := default EmptyString url in
  page_content ← get_page_content url ;
  match page_content with
  | Raised e => mret (Raised e)
  | Returned page_content =>
  if negb (Py.truthy page_content) then mret (Returned tt) else
  let page_content := default EmptyString page_content in
  let build_manifest_path := get_build_manifest_path page_content in
  if negb (Py.truthy build_manifest_path)
  then print not_found_message ;; mret (Returned tt) else
  let build_manifest_path := default EmptyString build_manifest_path in
  let build_manifest_url := url +:+ build_manifest_path in
  build_manifest_content ← get_build_manifest_content build_manifest_url ;
  match build_manifest_content with
  | Raised e => mret (Raised e)
  | Returned build_manifest_content =>
  if negb (Py.truthy build_manifest_content) then mret (Returned tt) else
  let build_manifest_content := default EmptyString build_manifest_content in
  let paths := parse_build_manifest_content build_manifest_content in
  lines ← iterate paths ;
  print (Py.join Py.newline lines) ;; mret (Returned tt)
  end
  end.

End ThankUNext.

(** ** Vocabulary of the properties *)

Module Spec.

Import Re ThankUNext.

(** The address has one of the two scheme prefixes. *)
Definition has_scheme (url : string) : bool :=
  Py.startswith url "http://" || Py.startswith url "https://".

(** A manifest path: the fixed directory, a non-empty token of word
    characters and hyphens, the fixed file name. *)
Definition is_manifest_path (m : string) : Prop :=
  exists tok, m = manifest_prefix +:+ tok +:+ manifest_suffix
    /\ tok <> EmptyString /\ Py.all_chars token_char tok = true.

(** A route literal: a slash and at least one more character, all from the
    set of the route pattern. *)
Definition is_route (p : string) : bool :=
  Py.startswith p "/" && (1 <? String.length p) && Py.all_chars route_char p.

(** [p] between two double quotes. *)
Definition quoted (p : string) : string := quote +:+ p +:+ quote.

(** No double quote in [s]. *)
Definition no_quote (s : string) : bool :=
  Py.all_chars (fun c => negb (is_char Py.DQ c)) s.

(** Route literals chained on shared quotes.  [chain_from n pre k]: right
    before the double quote that follows [pre], [k] route literals stand in
    a row, the closing quote of each being the opening quote of the next
    (the last one closes on the quote that follows [pre]); each of them
    opens at position [n] of [pre] or later, and the row goes back as far as
    it can. *)
Inductive chain_from (n : nat) : string -> nat -> Prop :=
| chain_stop (pre : string) :
    (forall pre' q, is_route q = true -> pre = pre' +:+ quote +:+ q ->
       String.length pre' < n) ->
    chain_from n pre 0
| chain_link (pre' q : string) (k : nat) :
    is_route q = true -> n <= String.length pre' ->
    chain_from n pre' k -> chain_from n (pre' +:+ quote +:+ q) (S k).

(** The row of route literals chained before the quote that follows [pre],
    anywhere in [pre]. *)
Definition chain : string -> nat -> Prop := chain_from 0.

(** What the run does after the manifest URL is known. *)
Definition report_trace (w : World) (url : string) : list event :=
  Request url user_agent ::
  match requests_get w url user_agent with
  | RequestException e =>
      [Stdout (("Error accessing buildManifest content: " +:+ e) +:+ Py.newline)]
  | OtherException _ => []
  | Body EmptyString => []
  | Body manifest =>
      [Stdout (Py.join Py.newline (set_iter w (parse_build_manifest_content manifest))
               +:+ Py.newline)]
  end.

(** What the run does after the address has passed the scheme check. *)
Definition fetch_trace (w : World) (url : string) : list event :=
  Request url user_agent ::
  match requests_get w url user_agent with
  | RequestException e =>
      [Stdout (("Error when accessing the URL: " +:+ e) +:+ Py.newline)]
  | OtherException _ => []
  | Body EmptyString => []
  | Body page =>
      match get_build_manifest_path page with
      | None => [Stdout (not_found_message +:+ Py.newline)]
      | Some p => report_trace w (url +:+ p)
      end
  end.

(** White space as [str.isspace] sees it, below U+0100. *)
Definition is_space (c : ascii) : bool :=
  between 9 13 c || between 28 32 c || is_char "133" c || is_char "160" c.

(** A world for examples: [page] answers the request of [url], [manifest]
    any other request; sets are enumerated as [elements] lists them. *)
Definition mock (url : string) (page manifest : outcome) : World :=
  mkWorld (fun u _ => if String.eqb u url then page else manifest)
          elements (fun X => Permutation_refl (elements X)).

(** The route set as the words [a substring inside double quotes that starts
    with a slash and has only characters of the set] describe it. *)
Definition stated_route (text p : string) : Prop :=
  (exists pre post, text = pre +:+ quoted p +:+ post)
  /\ Py.startswith p "/" = true /\ Py.all_chars route_char p = true.

(** Two route literals that share a double quote. *)
Definition chained_a_b : string := quoted "/a" +:+ "/b" +:+ quote.

(** A page that refers to no manifest, and a manifest that lists no route. *)
Definition page_plain : string := "<html><body>It works!</body></html>".

Definition manifest_braces : string := "{}".

(** A world in which only two URLs exist: [page] answers the request of
    [url], [manifest] the request of [manifest_url], and any other request
    fails with status 404. *)
Definition site (url : string) (page : outcome) (manifest_url : string)
    (manifest : outcome) : World :=
  mkWorld (fun u _ => if String.eqb u url then page
                      else if String.eqb u manifest_url then manifest
                      else RequestException "404 Client Error: Not Found")
          elements (fun X => Permutation_refl (elements X)).

(** A world like [mock] that enumerates sets the other way round. *)
Definition mock_reversed (url : string) (page manifest : outcome) : World :=
  mkWorld (fun u _ => if String.eqb u url then page else manifest)
          (fun X => reverse (elements X))
          (fun X => reverse_Permutation (elements X)).

Definition example_com : string := "https://example.com".

(** A page that refers to its manifest. *)
Definition page_abc123 : string :=
  "<script src=" +:+ quoted "/_next/static/abc123/_buildManifest.js"
  +:+ " defer></script>".

Definition page_xyz : string :=
  "<script src=" +:+ quoted "/_next/static/xyz/_buildManifest.js"
  +:+ " defer></script>".

(** The manifest body in which [/foo] is listed twice. *)
Definition manifest_foo_bar : string :=
  "{" +:+ quoted "a" +:+ ":[" +:+ quoted "/foo" +:+ "," +:+ quoted "/bar"
  +:+ "," +:+ quoted "/foo" +:+ "]}".

(** The manifest body with the two routes [/a] and [/b/[id]]. *)
Definition manifest_a_b : string :=
  "[" +:+ quoted "/a" +:+ "," +:+ quoted "/b/[id]" +:+ "]".

(** [s.split(sep)] for a separator of one character: the pieces of [s]
    between the separators, at least one piece. *)
Fixpoint split (sep : ascii) (s : string) : list string :=
  match s with
  | EmptyString => [EmptyString]
  | String c s' =>
      if Ascii.eqb c sep then EmptyString :: split sep s'
      else match split sep s' with
           | w :: ws => String c w :: ws
           | [] => [String c EmptyString]
           end
  end.

(** [s.count(c)] for a character [c]. *)
Fixpoint count_char (c : ascii) (s : string) : nat :=
  match s with
  | EmptyString => 0
  | String d s' => (if Ascii.eqb c d then 1 else 0) + count_char c s'
  end.

(** The texts written to standard output, one per write. *)
Fixpoint prints (t : list event) : list string :=
  match t with
  | [] => []
  | Stdout text :: t' => text :: prints t'
  | Request _ _ :: t' => prints t'
  end.

(** A JSON array of strings that need no escaping. *)
Definition json_array (l : list string) : string :=
  "[" +:+ Py.join "," (map quoted l) +:+ "]".

End Spec.

(** * Properties *)

(** ** Facts about strings *)

Module StringFacts.

Lemma app_nil_l (s : string) : EmptyString +:+ s = s.
Proof. reflexivity. Qed.

Lemma app_cons (c : ascii) (a b : string) :
  String c a +:+ b = String c (a +:+ b).
Proof. reflexivity. Qed.

Lemma app_nil_r (s : string) : s +:+ EmptyString = s.
Proof. induction s as [|c s IH]; [reflexivity|]. rewrite app_cons, IH. reflexivity. Qed.

Lemma app_assoc (a b c : string) : (a +:+ b) +:+ c = a +:+ b +:+ c.
Proof.
  induction a as [|x a IH]; [reflexivity|].
  rewrite !app_cons, IH. reflexivity.
Qed.

Lemma app_assoc3 (a b c d : string) :
  a +:+ b +:+ c +:+ d = (a +:+ b +:+ c) +:+ d.
Proof. rewrite !app_assoc. reflexivity. Qed.

Lemma length_app (a b : string) :
  String.length (a +:+ b) = String.length a + String.length b.
Proof.
  induction a as [|x a IH]; [reflexivity|].
  rewrite app_cons. simpl. rewrite IH. reflexivity.
Qed.

Lemma take_app (a b : string) : Py.take (String.length a) (a +:+ b) = a.
Proof.
  unfold Py.take. induction a as [|x a IH].
  - destruct b; reflexivity.
  - rewrite app_cons. simpl. rewrite IH. reflexivity.
Qed.

(** Two ways to cut one text at the same place are the same cut. *)
Lemma app_eq_length (a b a' b' : string) :
  a +:+ b = a' +:+ b' -> String.length a = String.length a' ->
  a = a' /\ b = b'.
Proof.
  revert a'. induction a as [|x a IH]; intros [|x' a'] Heq Hlen;
    try discriminate.
  - split; [reflexivity | exact Heq].
  - rewrite !app_cons in Heq. injection Heq as -> Heq.
    simpl in Hlen. destruct (IH a' Heq) as [-> ->]; [lia|]. split; reflexivity.
Qed.

(** Of two prefixes of one text, the shorter is a prefix of the longer. *)
Lemma app_eq_le (a b a' b' : string) :
  a +:+ b = a' +:+ b' -> String.length a <= String.length a' ->
  exists mid, a' = a +:+ mid /\ b = mid +:+ b'.
Proof.
  revert a'. induction a as [|x a IH]; intros a' Heq Hlen.
  - exists a'. split; [reflexivity | exact Heq].
  - destruct a' as [|x' a']; [simpl in Hlen; lia|].
    rewrite !app_cons in Heq. injection Heq as -> Heq. simpl in Hlen.
    destruct (IH a' Heq) as (mid & -> & ->); [lia|].
    exists mid. split; reflexivity.
Qed.

Lemma all_chars_app (cls : ascii -> bool) (a b : string) :
  Py.all_chars cls (a +:+ b) = Py.all_chars cls a && Py.all_chars cls b.
Proof.
  induction a as [|x a IH]; [reflexivity|].
  rewrite app_cons. simpl. rewrite IH. apply andb_assoc.
Qed.

Lemma all_chars_impl (cls cls' : ascii -> bool) (s : string) :
  (forall c, cls c = true -> cls' c = true) ->
  Py.all_chars cls s = true -> Py.all_chars cls' s = true.
Proof.
  intros Hc. induction s as [|x s IH]; [reflexivity|]. simpl.
  intros [Hx Hs]%andb_true_iff. rewrite (Hc x Hx), (IH Hs). reflexivity.
Qed.

Lemma prefix_app (p s : string) :
  String.prefix p s = true <-> exists rest, s = p +:+ rest.
Proof.
  revert s. induction p as [|c p IH]; intros s.
  - split; [intros _; exists s; reflexivity|]. destruct s; reflexivity.
  - destruct s as [|d s].
    + split; [discriminate | intros [rest H]; discriminate].
    + simpl. destruct (ascii_dec c d) as [->|Hne].
      * rewrite IH. split; intros [rest H]; exists rest.
        -- rewrite app_cons, H. reflexivity.
        -- rewrite app_cons in H. injection H as H. exact H.
      * split; [discriminate|]. intros [rest H]. rewrite app_cons in H.
        injection H as H _. congruence.
Qed.

Lemma some_char_none (cls bad : ascii -> bool) (s : string) :
  (forall c, cls c = true -> bad c = false) ->
  Py.all_chars cls s = true -> Py.some_char bad s = false.
Proof.
  intros Hc. induction s as [|x s IH]; [reflexivity|]. simpl.
  intros [Hx Hs]%andb_true_iff. rewrite (Hc x Hx), (IH Hs). reflexivity.
Qed.

Lemma app_longer (a b : string) : b <> EmptyString -> a +:+ b <> a.
Proof.
  intros Hb Heq. apply (f_equal String.length) in Heq.
  rewrite length_app in Heq. destruct b; [congruence | simpl in Heq; lia].
Qed.

End StringFacts.

(** ** Facts about the matcher *)

Module ReFacts.

Import StringFacts Re.

Lemma eat_Some (lit s s' : string) : eat lit s = Some s' <-> s = lit +:+ s'.
Proof.
  revert s. induction lit as [|c lit IH]; intros s.
  - simpl. rewrite app_nil_l. split; congruence.
  - destruct s as [|d s]; simpl.
    + split; discriminate.
    + rewrite app_cons. destruct (Ascii.eqb_spec c d) as [->|Hne].
      * rewrite IH. split; congruence.
      * split; [discriminate | congruence].
Qed.

Lemma eat_cons (c d : ascii) (lit s : string) :
  eat (String c lit) (String d s) = if Ascii.eqb c d then eat lit s else None.
Proof. reflexivity. Qed.

Lemma eat_app (lit s : string) : eat lit (lit +:+ s) = Some s.
Proof. apply eat_Some. reflexivity. Qed.

Lemma consumed_app (a b : string) : consumed (a +:+ b) b = a.
Proof.
  unfold consumed. rewrite length_app.
  replace (String.length a + String.length b - String.length b)
    with (String.length a) by lia.
  apply take_app.
Qed.

Lemma plus_not_started {R : Type} cls (k : string -> option R) s :
  starts_in cls s = false -> plus cls k s = None.
Proof. destruct s as [|c s]; simpl; [reflexivity|]. intros ->. reflexivity. Qed.

(** Whatever [plus] returns, the rest of the pattern returned it after a
    non-empty run of characters of the set. *)
Lemma plus_sound {R : Type} cls (k : string -> option R) s x :
  plus cls k s = Some x ->
  exists tok rest, s = tok +:+ rest /\ tok <> EmptyString
    /\ Py.all_chars cls tok = true /\ k rest = Some x.
Proof.
  induction s as [|c s IH]; simpl; [discriminate|].
  destruct (cls c) eqn:Hc; [|discriminate].
  destruct (plus cls k s) as [r|] eqn:Hp.
  - intros [= ->]. destruct (IH eq_refl) as (tok & rest & -> & _ & Hall & Hk).
    exists (String c tok), rest. simpl. rewrite Hc, Hall. repeat split; [discriminate | exact Hk].
  - intros Hk. exists (String c EmptyString), s. simpl. rewrite Hc.
    repeat split; [discriminate | exact Hk].
Qed.

(** When the rest of the pattern cannot start inside the set, the run is the
    longest one and nothing is given back. *)
Lemma plus_stop {R : Type} cls (k : string -> option R) tok rest :
  (forall s, starts_in cls s = true -> k s = None) ->
  tok <> EmptyString -> Py.all_chars cls tok = true ->
  starts_in cls rest = false ->
  plus cls k (tok +:+ rest) = k rest.
Proof.
  intros Hk Hne Hall Hrest.
  induction tok as [|c tok IH]; [congruence|].
  simpl in Hall. apply andb_true_iff in Hall as [Hc Hall].
  rewrite app_cons. simpl. rewrite Hc.
  destruct tok as [|d tok].
  - rewrite app_nil_l, (plus_not_started _ _ _ Hrest). reflexivity.
  - rewrite IH by (discriminate || assumption).
    destruct (k rest) eqn:Hr; [reflexivity|].
    apply Hk. simpl in Hall |- *. apply andb_true_iff in Hall as [Hd _]. exact Hd.
Qed.

(** [search] finds the leftmost position that has a match. *)
Lemma search_Some r s m :
  search r s = Some m <->
  exists pre post, s = pre +:+ post /\ match_at r post = Some m
    /\ forall pre' post', s = pre' +:+ post' ->
         String.length pre' < String.length pre -> match_at r post' = None.
Proof.
  induction s as [|c s IH].
  - simpl. destruct (match_at r EmptyString) as [m0|] eqn:H0; split.
    + intros [= ->]. exists EmptyString, EmptyString.
      repeat split; [exact H0|]. simpl. lia.
    + intros ([|] & post & Heq & Hm & _); [|discriminate].
      rewrite app_nil_l in Heq. subst post. congruence.
    + discriminate.
    + intros ([|] & post & Heq & Hm & _); [|discriminate].
      rewrite app_nil_l in Heq. subst post. congruence.
  - simpl. destruct (match_at r (String c s)) as [m0|] eqn:H0; split.
    + intros [= ->]. exists EmptyString, (String c s).
      repeat split; [exact H0|]. simpl. lia.
    + intros ([|d pre] & post & Heq & Hm & Hleft).
      * rewrite app_nil_l in Heq. subst post. congruence.
      * specialize (Hleft EmptyString (String c s) eq_refl). simpl in Hleft.
        rewrite Hleft in H0 by lia. discriminate.
    + intros (pre & post & -> & Hm & Hleft)%IH.
      exists (String c pre), post. repeat split; [exact Hm|].
      intros [|d pre'] post' Heq Hlen.
      * rewrite app_nil_l in Heq. subst post'. exact H0.
      * rewrite !app_cons in Heq. injection Heq as _ Heq.
        apply (Hleft pre' post' Heq). simpl in Hlen. lia.
    + intros ([|d pre] & post & Heq & Hm & Hleft).
      * rewrite app_nil_l in Heq. subst post. congruence.
      * rewrite app_cons in Heq. injection Heq as <- ->.
        apply IH. exists pre, post. repeat split; [exact Hm|].
        intros pre' post' Heq Hlen.
        apply (Hleft (String c pre') post').
        -- rewrite app_cons, Heq. reflexivity.
        -- simpl. lia.
Qed.

Lemma search_None r s :
  search r s = None <-> forall pre post, s = pre +:+ post -> match_at r post = None.
Proof.
  induction s as [|c s IH]; simpl.
  - destruct (match_at r EmptyString) eqn:H0; split.
    + discriminate.
    + intros H. rewrite (H EmptyString EmptyString eq_refl) in H0. discriminate.
    + intros _ [|] post Heq; [|discriminate]. rewrite app_nil_l in Heq. congruence.
    + reflexivity.
  - destruct (match_at r (String c s)) eqn:H0; split.
    + discriminate.
    + intros H. rewrite (H EmptyString (String c s) eq_refl) in H0. discriminate.
    + intros Hs [|d pre] post Heq.
      * rewrite app_nil_l in Heq. congruence.
      * rewrite app_cons in Heq. injection Heq as _ ->.
        apply (proj1 IH Hs pre post eq_refl).
    + intros H. apply IH. intros pre post ->.
      apply (H (String c pre) post). reflexivity.
Qed.

End ReFacts.

(** ** The two patterns of the program *)

Module PatternFacts.

Import StringFacts Re ReFacts ThankUNext Spec.

Lemma is_route_body p :
  is_route p = true <->
  exists body, p = "/" +:+ body /\ body <> EmptyString
    /\ Py.all_chars route_char body = true.
Proof.
  unfold is_route, Py.startswith. split.
  - intros [[Hp Hl]%andb_true_iff Ha]%andb_true_iff.
    apply prefix_app in Hp as [body ->]. exists body.
    rewrite app_cons, app_nil_l in *. simpl in Ha, Hl.
    apply Nat.ltb_lt in Hl. split; [reflexivity|]. split.
    + intros ->. simpl in Hl. lia.
    + exact Ha.
  - intros (body & -> & Hne & Ha). rewrite app_cons, app_nil_l. simpl.
    rewrite Ha. destruct body; [congruence|]. reflexivity.
Qed.

Lemma manifest_suffix_stops s :
  starts_in token_char s = true -> eat manifest_suffix s = None.
Proof.
  destruct s as [|c s]; [discriminate|]. unfold manifest_suffix.
  rewrite eat_cons. simpl starts_in.
  destruct (Ascii.eqb_spec "/" c) as [<-|]; [discriminate | reflexivity].
Qed.

Lemma match_at_manifest s m :
  match_at manifest_pattern s = Some m <->
  exists tok rest,
    s = manifest_prefix +:+ tok +:+ manifest_suffix +:+ rest
    /\ tok <> EmptyString /\ Py.all_chars token_char tok = true
    /\ m = mkMatch (manifest_prefix +:+ tok +:+ manifest_suffix) None.
Proof.
  unfold match_at, manifest_pattern. cbn [rmatch]. split.
  - destruct (eat manifest_prefix s) as [s1|] eqn:H1; [|discriminate].
    apply eat_Some in H1 as ->.
    intros (tok & s2 & -> & Hne & Hall & Hk)%plus_sound.
    destruct (eat manifest_suffix s2) as [s3|] eqn:H3; [|discriminate].
    apply eat_Some in H3 as ->. injection Hk as <-.
    exists tok, s3. repeat split; try assumption.
    rewrite app_assoc3, consumed_app. reflexivity.
  - intros (tok & rest & -> & Hne & Hall & ->).
    rewrite eat_app, plus_stop; try assumption.
    + rewrite eat_app. f_equal. f_equal.
      rewrite app_assoc3. apply consumed_app.
    + intros s0 Hs0. rewrite (manifest_suffix_stops _ Hs0). reflexivity.
    + reflexivity.
Qed.

Lemma quote_stops s :
  starts_in route_char s = true -> eat quote s = None.
Proof.
  destruct s as [|c s]; [discriminate|]. unfold quote.
  rewrite eat_cons. simpl starts_in.
  destruct (Ascii.eqb_spec Py.DQ c) as [<-|]; [discriminate | reflexivity].
Qed.

Lemma match_at_route s m :
  match_at route_pattern s = Some m <->
  exists p rest, s = quoted p +:+ rest /\ is_route p = true
    /\ m = mkMatch (quoted p) (Some p).
Proof.
  unfold match_at, route_pattern. cbn [rmatch]. split.
  - destruct (eat quote s) as [s1|] eqn:H1; [|discriminate].
    apply eat_Some in H1 as ->.
    destruct (eat "/" s1) as [s2|] eqn:H2; [|discriminate].
    apply eat_Some in H2 as ->.
    intros (body & s3 & -> & Hne & Hall & Hk)%plus_sound.
    destruct (eat quote s3) as [s4|] eqn:H4; [|discriminate].
    apply eat_Some in H4 as ->. injection Hk as <-.
    exists ("/" +:+ body), s4. unfold quoted. split; [|split].
    + rewrite !app_assoc. reflexivity.
    + apply is_route_body. exists body. auto.
    + f_equal.
      * replace (quote +:+ "/" +:+ body +:+ quote +:+ s4)
          with ((quote +:+ ("/" +:+ body) +:+ quote) +:+ s4)
          by (rewrite !app_assoc; reflexivity).
        apply consumed_app.
      * f_equal. rewrite <- (app_assoc "/"). apply consumed_app.
  - intros (p & rest & -> & (body & -> & Hne & Hall)%is_route_body & ->).
    unfold quoted. rewrite !app_assoc.
    rewrite eat_app, eat_app, plus_stop; try assumption.
    + rewrite eat_app. f_equal. f_equal.
      * replace (quote +:+ "/" +:+ body +:+ quote +:+ rest)
          with ((quote +:+ "/" +:+ body +:+ quote) +:+ rest)
          by (rewrite !app_assoc; reflexivity).
        apply consumed_app.
      * f_equal. rewrite <- (app_assoc "/"). apply consumed_app.
    + intros s0 Hs0. rewrite (quote_stops _ Hs0). reflexivity.
    + reflexivity.
Qed.

(** Every entry of [findall] is the item of a match somewhere in the text. *)
Lemma findall_from_sound r s : forall skip x,
  x ∈ findall_from r skip s ->
  exists pre post m, s = pre +:+ post /\ match_at r post = Some m /\ x = item m.
Proof.
  assert (Hshift : forall c s' x,
    (exists pre post m, s' = pre +:+ post /\ match_at r post = Some m /\ x = item m) ->
    exists pre post m, String c s' = pre +:+ post /\ match_at r post = Some m /\ x = item m).
  { intros c s' x (pre & post & m & -> & Hm & Hx).
    exists (String c pre), post, m. auto. }
  induction s as [|c s IH]; intros [|n] x; simpl.
  - destruct (match_at r EmptyString) as [m|] eqn:Hm.
    + intros ->%list_elem_of_singleton. exists EmptyString, EmptyString, m. auto.
    + intros []%elem_of_nil.
  - intros []%elem_of_nil.
  - destruct (match_at r (String c s)) as [m|] eqn:Hm.
    + intros [->|Hin]%elem_of_cons.
      * exists EmptyString, (String c s), m. auto.
      * apply Hshift, (IH _ _ Hin).
    + intros Hin. apply Hshift, (IH _ _ Hin).
  - intros Hin. apply Hshift, (IH _ _ Hin).
Qed.

Lemma route_char_not_quote c : route_char c = true -> negb (is_char Py.DQ c) = true.
Proof. destruct c as [[] [] [] [] [] [] [] []]; vm_compute; congruence. Qed.

Lemma route_no_quote p : is_route p = true -> no_quote p = true.
Proof.
  unfold is_route. intros [_ Hall]%andb_true_iff.
  apply (all_chars_impl route_char); [apply route_char_not_quote | exact Hall].
Qed.

(** The first double quote after a text free of them is where it ends. *)
Lemma first_quote q : forall a r1 r2,
  no_quote q = true -> q +:+ quote +:+ r1 = a +:+ quote +:+ r2 ->
  a = q \/ exists mid, a = q +:+ quote +:+ mid.
Proof.
  unfold no_quote, quote.
  induction q as [|x q IH]; intros [|c a] r1 r2 Hq Heq.
  - left. reflexivity.
  - right. rewrite !app_nil_l, !app_cons in Heq. injection Heq as <- _.
    exists a. reflexivity.
  - rewrite !app_cons, !app_nil_l in Heq. injection Heq as -> _.
    discriminate Hq.
  - rewrite !app_cons in Heq. injection Heq as <- Heq.
    simpl in Hq. apply andb_true_iff in Hq as [_ Hq].
    destruct (IH a r1 r2 Hq Heq) as [->|[mid ->]].
    + left. reflexivity.
    + right. exists mid. reflexivity.
Qed.

(** A quoted route literal is listed by [findall] when no match that the
    scan can take ends on its opening quote. *)
Lemma findall_route_complete s : forall skip pre p post,
  s = pre +:+ quoted p +:+ post -> is_route p = true ->
  skip <= String.length pre ->
  (forall pre' q, is_route q = true -> pre = pre' +:+ quote +:+ q ->
     String.length pre' < skip) ->
  p ∈ findall_from route_pattern skip s.
Proof.
  induction s as [|c s IH]; intros skip pre p post Heq Hp Hskip Hfree.
  - destruct pre; discriminate Heq.
  - destruct skip as [|n].
    + simpl. destruct (match_at route_pattern (String c s)) as [m|] eqn:Hm.
      * apply match_at_route in Hm as (q & rest & Hs & Hq & ->).
        destruct pre as [|d pre].
        -- rewrite app_nil_l in Heq.
           assert (Hm' : match_at route_pattern (String c s)
                         = Some (mkMatch (quoted p) (Some p))).
           { apply match_at_route. exists p, post. auto. }
           assert (Hm'' : match_at route_pattern (String c s)
                         = Some (mkMatch (quoted q) (Some q))).
           { apply match_at_route. exists q, rest. auto. }
           rewrite Hm' in Hm''. injection Hm'' as _ <-. apply list_elem_of_here.
        -- apply list_elem_of_further. cbn [item group1 group0].
           unfold quoted at 1 in Hs. unfold quote at 1 in Hs.
           rewrite app_assoc, app_cons, app_nil_l in Hs. injection Hs as -> ->.
           rewrite app_cons in Heq. injection Heq as <- Heq.
           unfold quoted in Heq. rewrite app_assoc in Heq.
           destruct (first_quote q pre rest _ (route_no_quote _ Hq) Heq)
             as [->|[mid ->]].
           ++ specialize (Hfree EmptyString q Hq eq_refl). simpl in Hfree. lia.
           ++ apply (IH _ (q +:+ quote +:+ mid) p post).
              ** unfold quoted. rewrite !app_assoc in Heq. rewrite !app_assoc.
                 exact Heq.
              ** exact Hp.
              ** unfold quoted, quote. rewrite !length_app. simpl. lia.
              ** intros pre' q' Hq' Hpre.
                 specialize (Hfree (String Py.DQ pre') q' Hq').
                 rewrite Hpre in Hfree. specialize (Hfree eq_refl).
                 simpl in Hfree. lia.
      * destruct pre as [|d pre].
        -- rewrite app_nil_l in Heq.
           assert (Hm' : match_at route_pattern (String c s)
                         = Some (mkMatch (quoted p) (Some p))).
           { apply match_at_route. exists p, post. auto. }
           congruence.
        -- rewrite app_cons in Heq. injection Heq as <- Heq.
           apply (IH 0 pre p post Heq Hp); [lia|].
           intros pre' q' Hq' ->.
           specialize (Hfree (String c pre') q' Hq' eq_refl). simpl in Hfree. lia.
    + destruct pre as [|d pre]; [simpl in Hskip; lia|].
      rewrite app_cons in Heq. injection Heq as <- Heq. simpl.
      apply (IH n pre p post Heq Hp); [simpl in Hskip; lia|].
      intros pre' q' Hq' ->.
      specialize (Hfree (String c pre') q' Hq' eq_refl). simpl in Hfree. lia.
Qed.

(** A match of the manifest pattern at the start of [s], said with the
    vocabulary of the properties. *)
Lemma match_at_manifest_path s mm :
  match_at manifest_pattern s = Some mm <->
  is_manifest_path (group0 mm) /\ group1 mm = None
  /\ exists rest, s = group0 mm +:+ rest.
Proof.
  rewrite match_at_manifest. split.
  - intros (tok & rest & -> & Hne & Hall & ->). cbn [group0 group1].
    split; [exists tok; auto|]. split; [reflexivity|].
    exists rest. apply app_assoc3.
  - destruct mm as [m g]. cbn [group0 group1].
    intros ((tok & -> & Hne & Hall) & -> & rest & ->).
    exists tok, rest. rewrite app_assoc3. auto.
Qed.

(** The locator returns the manifest path at the leftmost position where
    the pattern matches. *)
Lemma locator_Some page m :
  get_build_manifest_path page = Some m <->
  is_manifest_path m /\
  exists pre post, page = pre +:+ m +:+ post /\
    forall pre' post', page = pre' +:+ post' ->
      String.length pre' < String.length pre ->
      match_at manifest_pattern post' = None.
Proof.
  unfold get_build_manifest_path. split.
  - destruct (search manifest_pattern page) as [mm|] eqn:Hs; [|discriminate].
    intros [= <-]. apply search_Some in Hs as (pre & post & -> & Hm & Hleft).
    apply match_at_manifest_path in Hm as (Hshape & _ & rest & ->).
    split; [exact Hshape|]. exists pre, rest. auto.
  - intros (Hshape & pre & post & -> & Hleft).
    assert (Hs : search manifest_pattern (pre +:+ m +:+ post)
                 = Some (mkMatch m None)).
    { apply search_Some. exists pre, (m +:+ post). split; [reflexivity|].
      split; [|exact Hleft]. apply match_at_manifest_path.
      cbn [group0 group1]. eauto. }
    rewrite Hs. reflexivity.
Qed.

Lemma locator_None page :
  get_build_manifest_path page = None <->
  forall pre m post, page = pre +:+ m +:+ post -> ~ is_manifest_path m.
Proof.
  unfold get_build_manifest_path. split.
  - destruct (search manifest_pattern page) as [mm|] eqn:Hs; [discriminate|].
    intros _ pre m post -> Hshape.
    assert (Hm : match_at manifest_pattern (m +:+ post) = Some (mkMatch m None)).
    { apply match_at_manifest_path. cbn [group0 group1]. eauto. }
    rewrite (proj1 (search_None _ _) Hs pre (m +:+ post) eq_refl) in Hm.
    discriminate.
  - intros Hno.
    destruct (search manifest_pattern page) as [mm|] eqn:Hs; [|reflexivity].
    apply search_Some in Hs as (pre & post & -> & Hm & _).
    apply match_at_manifest_path in Hm as (Hshape & _ & rest & ->).
    destruct (Hno pre (group0 mm) rest eq_refl Hshape).
Qed.

(** Every extracted path is a route literal that stands between two double
    quotes in the text. *)
Lemma extract_sound text p :
  p ∈ parse_build_manifest_content text ->
  is_route p = true /\ exists pre post, text = pre +:+ quoted p +:+ post.
Proof.
  unfold parse_build_manifest_content, findall.
  intros (pre & post & m & -> & Hm & ->)%elem_of_list_to_set%findall_from_sound.
  apply match_at_route in Hm as (q & rest & -> & Hq & ->).
  cbn [item group1]. split; [exact Hq|]. exists pre, rest. reflexivity.
Qed.

Lemma route_char_not_space c : route_char c = true -> is_space c = false.
Proof. destruct c as [[] [] [] [] [] [] [] []]; vm_compute; congruence. Qed.

Lemma route_char_not_dquote c : route_char c = true -> is_char Py.DQ c = false.
Proof. destruct c as [[] [] [] [] [] [] [] []]; vm_compute; congruence. Qed.

End PatternFacts.

(** ** The scan of [findall] over the route pattern *)

Module ScanFacts.

Import StringFacts Re ReFacts ThankUNext Spec PatternFacts.

Lemma quote_inside a b : no_quote (a +:+ quote +:+ b) = false.
Proof.
  unfold no_quote. rewrite !all_chars_app. unfold quote. simpl.
  apply andb_false_r.
Qed.

(** A text is cut at its last double quote in one way only. *)
Lemma last_quote_le pre1 q1 pre2 q2 :
  no_quote q1 = true ->
  pre1 +:+ quote +:+ q1 = pre2 +:+ quote +:+ q2 ->
  String.length pre1 <= String.length pre2 ->
  pre1 = pre2 /\ q1 = q2.
Proof.
  intros H1 Heq Hle.
  destruct (app_eq_le _ _ _ _ Heq Hle) as (mid & -> & Hmid).
  destruct mid as [|c mid].
  - rewrite app_nil_r. rewrite app_nil_l in Hmid.
    apply (inj (String.app quote)) in Hmid. auto.
  - unfold quote in Hmid at 1. rewrite !app_cons, app_nil_l in Hmid.
    injection Hmid as _ ->. rewrite quote_inside in H1. discriminate.
Qed.

Lemma last_quote pre1 q1 pre2 q2 :
  no_quote q1 = true -> no_quote q2 = true ->
  pre1 +:+ quote +:+ q1 = pre2 +:+ quote +:+ q2 ->
  pre1 = pre2 /\ q1 = q2.
Proof.
  intros H1 H2 Heq.
  destruct (le_lt_dec (String.length pre1) (String.length pre2)) as [Hle|Hlt].
  - apply (last_quote_le _ _ _ _ H1 Heq Hle).
  - symmetry in Heq.
    destruct (last_quote_le _ _ _ _ H2 Heq) as [-> ->]; [lia | auto].
Qed.

(** Whether a text ends with a double quote and a route literal can be
    decided. *)
Lemma route_end_dec u :
  (exists pre' q, is_route q = true /\ u = pre' +:+ quote +:+ q)
  \/ (forall pre' q, is_route q = true -> u <> pre' +:+ quote +:+ q).
Proof.
  induction u as [|c u IH].
  - right. intros [|] q _; discriminate.
  - destruct IH as [(pre' & q & Hq & ->) | Hno].
    + left. exists (String c pre'), q. auto.
    + destruct (Ascii.eqb_spec c Py.DQ) as [-> | Hc].
      * destruct (is_route u) eqn:Hu.
        -- left. exists EmptyString, u. auto.
        -- right. intros [|d pre'] q Hq Heq.
           ++ unfold quote in Heq. rewrite app_nil_l, app_cons, app_nil_l in Heq.
              injection Heq as ->. congruence.
           ++ rewrite app_cons in Heq. injection Heq as _ ->.
              apply (Hno pre' q Hq eq_refl).
      * right. intros [|d pre'] q Hq Heq.
        -- unfold quote in Heq. rewrite app_nil_l, app_cons in Heq.
           injection Heq as -> _. congruence.
        -- rewrite app_cons in Heq. injection Heq as _ ->.
           apply (Hno pre' q Hq eq_refl).
Qed.

Lemma chain_from_nil n k : chain_from n EmptyString k -> k = 0.
Proof.
  intros H. remember EmptyString as u eqn:Hu.
  destruct H as [|[|] q k]; [reflexivity | discriminate Hu | discriminate Hu].
Qed.

(** The last link of a row is the literal after the last quote. *)
Lemma chain_from_inv n u k :
  chain_from n u k ->
  forall pre q, is_route q = true -> u = pre +:+ quote +:+ q ->
  (n <= String.length pre /\ exists k', k = S k' /\ chain_from n pre k')
  \/ (String.length pre < n /\ k = 0).
Proof.
  intros [pre0 Hstop | pre' q' k' Hq' Hn Hc] pre q Hq Heq.
  - right. split; [apply (Hstop pre q Hq Heq) | reflexivity].
  - left. apply last_quote in Heq as [-> ->]; try apply route_no_quote; auto.
    split; [exact Hn|]. eauto.
Qed.

(** Moving one character on while characters are being skipped. *)
Lemma chain_skip c n pre k :
  chain_from (S n) (String c pre) k <-> chain_from n pre k.
Proof.
  split.
  - intros H. remember (String c pre) as u eqn:Hu. revert pre Hu.
    induction H as [u Hstop | pre' q k Hq Hn Hc IH]; intros pre Hu.
    + subst u. apply chain_stop. intros pre' q Hq ->.
      specialize (Hstop (String c pre') q Hq eq_refl). simpl in Hstop. lia.
    + destruct pre' as [|d pre']; [simpl in Hn; lia|].
      rewrite app_cons in Hu. injection Hu as -> <-.
      apply chain_link; [exact Hq | simpl in Hn; lia | apply IH; reflexivity].
  - induction 1 as [pre Hstop | pre' q k Hq Hn Hc IH].
    + apply chain_stop. intros [|d pre'] q Hq Heq; [simpl; lia|].
      rewrite app_cons in Heq. injection Heq as <- ->.
      specialize (Hstop pre' q Hq eq_refl). simpl. lia.
    + change (String c (pre' +:+ quote +:+ q))
        with (String c pre' +:+ quote +:+ q).
      apply chain_link; [exact Hq | simpl; lia | exact IH].
Qed.

Lemma match_at_quoted q rest :
  is_route q = true ->
  match_at route_pattern (quote +:+ q +:+ quote +:+ rest)
  = Some (mkMatch (quoted q) (Some q)).
Proof.
  intros Hq. apply match_at_route. exists q, rest. unfold quoted.
  rewrite !app_assoc. auto.
Qed.

(** Moving one character on where no match starts. *)
Lemma chain_step c pre rest k :
  match_at route_pattern (String c pre +:+ quote +:+ rest) = None ->
  chain_from 0 (String c pre) k <-> chain_from 0 pre k.
Proof.
  intros Hnone. split.
  - intros H. remember (String c pre) as u eqn:Hu. revert pre rest Hnone Hu.
    induction H as [u Hstop | pre' q k Hq Hn Hc IH]; intros pre rest Hnone Hu.
    + subst u. apply chain_stop. intros pre' q Hq ->.
      specialize (Hstop (String c pre') q Hq eq_refl). simpl in Hstop. lia.
    + destruct pre' as [|d pre'].
      * rewrite app_nil_l, app_assoc, (match_at_quoted _ _ Hq) in Hnone.
        discriminate.
      * rewrite app_cons in Hu. injection Hu as -> <-.
        apply chain_link; [exact Hq | lia |].
        apply (IH pre' (q +:+ quote +:+ rest)); [|reflexivity].
        rewrite <- Hnone. rewrite !app_assoc. reflexivity.
  - intros H. revert rest Hnone.
    induction H as [pre Hstop | pre' q k Hq Hn Hc IH]; intros rest Hnone.
    + apply chain_stop. intros [|d pre'] q Hq Heq.
      * unfold quote in Heq at 1. rewrite app_nil_l, app_cons, app_nil_l in Heq.
        injection Heq as -> ->.
        change (String Py.DQ q) with (quote +:+ q) in Hnone.
        rewrite app_assoc, (match_at_quoted _ _ Hq) in Hnone. discriminate.
      * rewrite app_cons in Heq. injection Heq as _ ->.
        specialize (Hstop pre' q Hq eq_refl). lia.
    + change (String c (pre' +:+ quote +:+ q))
        with (String c pre' +:+ quote +:+ q).
      apply chain_link; [exact Hq | lia |].
      apply (IH (q +:+ quote +:+ rest)).
      rewrite <- Hnone. rewrite !app_cons, !app_assoc. reflexivity.
Qed.

Lemma length_quoted q : String.length (quoted q) = S (S (String.length q)).
Proof. unfold quoted, quote. rewrite !length_app. simpl. lia. Qed.

(** Where a text that starts with the match of [q0] can be cut before a
    quote and a route literal: right after the match's own opening quote
    and [q0], or after the whole match. *)
Lemma cut_after_match q0 mid pre' q :
  is_route q0 = true -> is_route q = true ->
  pre' +:+ quote +:+ q = quoted q0 +:+ mid ->
  pre' = quote +:+ q0 \/ exists mid', pre' = quoted q0 +:+ mid'.
Proof.
  intros Hq0 Hq Heq. unfold quoted in Heq. rewrite !app_assoc in Heq.
  destruct pre' as [|d pre1].
  - rewrite app_nil_l in Heq. apply (inj (String.app quote)) in Heq.
    apply route_no_quote in Hq. rewrite Heq, quote_inside in Hq. discriminate.
  - unfold quote in Heq at 2. rewrite !app_cons, app_nil_l in Heq.
    injection Heq as -> Heq. symmetry in Heq.
    destruct (first_quote q0 pre1 mid q (route_no_quote _ Hq0) Heq)
      as [-> | [mid' ->]].
    + left. reflexivity.
    + right. exists mid'. unfold quoted, quote.
      rewrite !app_assoc, !app_cons, !app_nil_l. reflexivity.
Qed.

Lemma even_succ_eq a b : Nat.even a = Nat.even b -> Nat.even (S a) = Nat.even (S b).
Proof. rewrite !Nat.even_succ, <- !Nat.negb_even. intros ->. reflexivity. Qed.

(** After a match is taken, the literals that open inside it are out of
    reach; the parity of the row is the same. *)
Lemma chain_after_match q0 : is_route q0 = true -> forall u k,
  chain_from 0 u k -> forall mid, u = quoted q0 +:+ mid ->
  exists k', chain_from (String.length (quoted q0)) u k'
    /\ Nat.even k' = Nat.even k.
Proof.
  intros Hq0 u k H.
  induction H as [u Hstop | pre' q k Hq _ Hc IH]; intros mid Hu.
  - exists 0. split; [|reflexivity]. apply chain_stop.
    intros pre' q Hq Heq. specialize (Hstop pre' q Hq Heq). lia.
  - destruct (cut_after_match _ _ _ _ Hq0 Hq Hu) as [-> | [mid' ->]].
    + destruct (chain_from_inv _ _ _ Hc EmptyString q0 Hq0 eq_refl)
        as [(_ & k1 & -> & Hc1) | [Hlt _]]; [|simpl in Hlt; lia].
      apply chain_from_nil in Hc1 as ->.
      exists 0. split; [|reflexivity]. apply chain_stop.
      intros pre'' q' Hq' Heq.
      apply last_quote in Heq as [<- _]; try apply route_no_quote; auto.
      rewrite length_quoted. unfold quote. rewrite length_app. simpl. lia.
    + destruct (IH mid' eq_refl) as (k0 & Hk0 & Hpar).
      exists (S k0). split; [|apply even_succ_eq, Hpar].
      apply chain_link; [exact Hq | rewrite length_app; lia | exact Hk0].
Qed.

Lemma chain_before_match q0 : is_route q0 = true -> forall u k',
  chain_from (String.length (quoted q0)) u k' ->
  forall mid, u = quoted q0 +:+ mid ->
  exists k, chain_from 0 u k /\ Nat.even k = Nat.even k'.
Proof.
  intros Hq0 u k' H.
  induction H as [u Hstop | pre' q k' Hq Hn Hc IH]; intros mid Hu.
  - destruct (route_end_dec u) as [(pre' & q & Hq & Heq) | Hno].
    + specialize (Hstop pre' q Hq Heq). rewrite Heq in Hu |- *. clear Heq.
      destruct (cut_after_match _ _ _ _ Hq0 Hq Hu) as [-> | [mid' ->]].
      * exists 2. split; [|reflexivity].
        apply chain_link; [exact Hq | lia |].
        apply (chain_link 0 EmptyString q0 0 Hq0); [simpl; lia|].
        apply chain_stop. intros [|] q' _; discriminate.
      * rewrite length_app in Hstop. lia.
    + exists 0. split; [|reflexivity]. apply chain_stop.
      intros pre' q Hq Heq. destruct (Hno pre' q Hq Heq).
  - destruct (cut_after_match _ _ _ _ Hq0 Hq Hu) as [-> | [mid' ->]].
    + rewrite length_quoted in Hn. unfold quote in Hn.
      rewrite length_app in Hn. simpl in Hn. lia.
    + destruct (IH mid' eq_refl) as (k0 & Hk0 & Hpar).
      exists (S k0). split; [|apply even_succ_eq, Hpar].
      apply chain_link; [exact Hq | lia | exact Hk0].
Qed.

Lemma match_at_route_nil : match_at route_pattern EmptyString = None.
Proof. reflexivity. Qed.

(** What [findall] lists for the route pattern: the route literals between
    double quotes that have an even row of chained literals before them,
    counted from where the scan may start a match. *)
Lemma findall_route_exact s : forall skip x,
  x ∈ findall_from route_pattern skip s <->
  exists pre post k, s = pre +:+ quoted x +:+ post /\ is_route x = true
    /\ skip <= String.length pre /\ chain_from skip pre k
    /\ Nat.even k = true.
Proof.
  induction s as [|c s IH]; intros skip x.
  - split.
    + destruct skip; cbn [findall_from]; [rewrite match_at_route_nil|];
        intros []%elem_of_nil.
    + intros (pre & post & k & Heq & _). destruct pre; discriminate Heq.
  - destruct skip as [|n]; cbn [findall_from].
    + destruct (match_at route_pattern (String c s)) as [m|] eqn:Hm.
      * apply match_at_route in Hm as (q0 & rest0 & Hs & Hq0 & ->).
        cbn [item group1 group0]. rewrite elem_of_cons, IH, length_quoted.
        unfold quoted in Hs at 1. unfold quote in Hs at 1.
        rewrite app_assoc, app_cons, app_nil_l in Hs. injection Hs as -> Hs.
        rewrite app_assoc in Hs. subst s. split.
        -- intros [-> | (pre1 & post & k' & Heq & Hx & Hskip & Hch & Hev)].
           ++ exists EmptyString, rest0, 0. rewrite app_nil_l.
              split; [unfold quoted, quote; rewrite !app_assoc; reflexivity|].
              split; [exact Hq0|]. split; [simpl; lia|]. split; [|reflexivity].
              apply chain_stop. intros [|] q' _; discriminate.
           ++ unfold quoted in Heq. rewrite app_assoc in Heq.
              destruct (first_quote q0 pre1 rest0 _ (route_no_quote _ Hq0) Heq)
                as [-> | [mid ->]]; [simpl in Hskip; lia|].
              simpl in Hch. apply (chain_skip Py.DQ) in Hch.
              rewrite <- (length_quoted q0) in Hch.
              destruct (chain_before_match q0 Hq0 _ _ Hch mid) as (k & Hk & Hpar).
              { unfold quoted, quote. rewrite !app_assoc. reflexivity. }
              exists (String Py.DQ (q0 +:+ quote +:+ mid)), post, k.
              split.
              { rewrite app_cons. f_equal. rewrite Heq. unfold quoted.
                rewrite !app_assoc. reflexivity. }
              split; [exact Hx|]. split; [lia|]. split; [exact Hk|].
              rewrite Hpar. exact Hev.
        -- intros (pre & post & k & Heq & Hx & _ & Hch & Hev).
           unfold quoted in Heq. rewrite app_assoc in Heq.
           destruct pre as [|d pre1].
           ++ left. unfold quote in Heq at 2.
              rewrite app_nil_l, app_cons, app_nil_l in Heq. injection Heq as Heq.
              symmetry in Heq. rewrite app_assoc in Heq.
              destruct (first_quote x q0 post rest0 (route_no_quote _ Hx) Heq)
                as [-> | [mid ->]]; [reflexivity|].
              apply route_no_quote in Hq0. rewrite quote_inside in Hq0.
              discriminate.
           ++ right. rewrite app_cons in Heq. injection Heq as <- Heq.
              destruct (first_quote q0 pre1 rest0 _ (route_no_quote _ Hq0) Heq)
                as [-> | [mid ->]].
              ** destruct (chain_from_inv _ _ _ Hch EmptyString q0 Hq0 eq_refl)
                   as [(_ & k1 & -> & Hc1) | [Hlt _]]; [|simpl in Hlt; lia].
                 apply chain_from_nil in Hc1 as ->. discriminate Hev.
              ** destruct (chain_after_match q0 Hq0 _ _ Hch mid) as (k' & Hk' & Hpar).
                 { unfold quoted, quote. rewrite !app_assoc. reflexivity. }
                 rewrite length_quoted in Hk'. apply chain_skip in Hk'.
                 exists (q0 +:+ quote +:+ mid), post, k'.
                 split.
                 { rewrite Heq. unfold quoted. rewrite !app_assoc. reflexivity. }
                 split; [exact Hx|].
                 split; [rewrite !length_app; unfold quote; simpl; lia|].
                 split; [exact Hk'|]. rewrite Hpar. exact Hev.
      * rewrite IH. split.
        -- intros (pre1 & post & k & -> & Hx & _ & Hch & Hev).
           exists (String c pre1), post, k.
           split; [reflexivity|]. split; [exact Hx|]. split; [lia|].
           split; [|exact Hev].
           apply (chain_step c pre1 (x +:+ quote +:+ post)); [|exact Hch].
           rewrite <- Hm. unfold quoted. rewrite !app_cons, !app_assoc.
           reflexivity.
        -- intros (pre & post & k & Heq & Hx & _ & Hch & Hev).
           destruct pre as [|d pre1].
           ++ rewrite app_nil_l in Heq. rewrite Heq in Hm. unfold quoted in Hm.
              rewrite !app_assoc, (match_at_quoted _ _ Hx) in Hm. discriminate.
           ++ rewrite app_cons in Heq. injection Heq as <- ->.
              exists pre1, post, k.
              split; [reflexivity|]. split; [exact Hx|]. split; [lia|].
              split; [|exact Hev].
              apply (chain_step c pre1 (x +:+ quote +:+ post)); [|exact Hch].
              rewrite <- Hm. unfold quoted. rewrite !app_cons, !app_assoc.
              reflexivity.
    + rewrite IH. split.
      * intros (pre1 & post & k & -> & Hx & Hskip & Hch & Hev).
        exists (String c pre1), post, k.
        split; [reflexivity|]. split; [exact Hx|]. split; [simpl; lia|].
        split; [|exact Hev]. apply chain_skip, Hch.
      * intros (pre & post & k & Heq & Hx & Hskip & Hch & Hev).
        destruct pre as [|d pre1]; [simpl in Hskip; lia|].
        rewrite app_cons in Heq. injection Heq as <- ->.
        exists pre1, post, k.
        split; [reflexivity|]. split; [exact Hx|]. split; [simpl in Hskip; lia|].
        split; [|exact Hev]. apply (chain_skip c), Hch.
Qed.

(** The extracted paths, exactly. *)
Lemma extract_exact text p :
  p ∈ parse_build_manifest_content text <->
  exists pre post k, text = pre +:+ quoted p +:+ post /\ is_route p = true
    /\ chain pre k /\ Nat.even k = true.
Proof.
  unfold parse_build_manifest_content, findall, chain.
  rewrite elem_of_list_to_set, findall_route_exact. split.
  - intros (pre & post & k & Heq & Hp & _ & Hch & Hev). eauto 8.
  - intros (pre & post & k & Heq & Hp & Hch & Hev).
    exists pre, post, k. repeat split; auto. lia.
Qed.

End ScanFacts.

(** ** The driver *)

Module DriverFacts.

Import StringFacts Re ReFacts ThankUNext Spec PatternFacts.

Lemma parse_url_valid url w t :
  has_scheme url = true -> parse_url url w t = (Some url, t).
Proof.
  unfold has_scheme, parse_url. intros H.
  rewrite <- negb_orb, H. reflexivity.
Qed.

Lemma parse_url_invalid url w t :
  has_scheme url = false ->
  parse_url url w t = (None, t ++ [Stdout (scheme_message +:+ Py.newline)]).
Proof.
  unfold has_scheme, parse_url. intros H.
  rewrite <- negb_orb, H. reflexivity.
Qed.

Lemma has_scheme_truthy url : has_scheme url = true -> Py.truthy (Some url) = true.
Proof. destruct url; [discriminate | reflexivity]. Qed.

Lemma manifest_path_shape page p :
  get_build_manifest_path page = Some p -> is_manifest_path p.
Proof.
  unfold get_build_manifest_path.
  destruct (search manifest_pattern page) as [m|] eqn:Hs; [|discriminate].
  intros [= <-]. apply search_Some in Hs as (pre & post & _ & Hm & _).
  apply match_at_manifest in Hm as (tok & rest & _ & Hne & Hall & ->).
  exists tok. auto.
Qed.

Lemma manifest_path_truthy page p :
  get_build_manifest_path page = Some p -> Py.truthy (Some p) = true.
Proof. intros (tok & -> & _)%manifest_path_shape. reflexivity. Qed.

(** The whole trace of [start], branch by branch. *)
Lemma run_start w url :
  run w (start url) =
  if has_scheme url then fetch_trace w url
  else [Stdout (scheme_message +:+ Py.newline)].
Proof.
  unfold run, start, mbind, IO_bind.
  destruct (has_scheme url) eqn:Hs.
  - rewrite (parse_url_valid _ _ _ Hs), (has_scheme_truthy _ Hs).
    unfold fetch_trace, get_page_content, http_get, mbind, IO_bind. cbn [negb from_option id app].
    destruct (requests_get w url user_agent) as [page|e|e];
      [|reflexivity|reflexivity].
    destruct page as [|c page]; [reflexivity|].
    cbn [mret IO_ret Py.truthy negb from_option id].
    destruct (get_build_manifest_path (String c page)) as [p|] eqn:Hp; [|reflexivity].
    rewrite (manifest_path_truthy _ _ Hp).
    unfold report_trace, get_build_manifest_content, http_get, mbind, IO_bind.
    cbn [negb from_option id app].
    destruct (requests_get w (url +:+ p) user_agent) as [man|e|e];
      [|reflexivity|reflexivity].
    destruct man as [|d man]; reflexivity.
  - rewrite (parse_url_invalid _ _ _ Hs). reflexivity.
Qed.

(** The last step when the manifest has a body. *)
Lemma report_trace_body w url manifest :
  requests_get w url user_agent = Body manifest -> manifest <> EmptyString ->
  report_trace w url =
  [Request url user_agent;
   Stdout (Py.join Py.newline (set_iter w (parse_build_manifest_content manifest))
           +:+ Py.newline)].
Proof.
  intros Hm Hne. unfold report_trace. rewrite Hm.
  destruct manifest; [congruence | reflexivity].
Qed.

(** An empty set is enumerated as the empty list. *)
Lemma set_iter_empty w : set_iter w ∅ = [].
Proof.
  apply Permutation_nil_r. rewrite <- (elements_empty (C := gset string)).
  apply set_iter_perm.
Qed.

End DriverFacts.

(** ** The pipeline, step by step *)

Module Pipeline.

Import StringFacts Re ReFacts ThankUNext Spec PatternFacts ScanFacts DriverFacts.

(** C8. For every address that starts with [http://] or [https://],
    [parse_url] returns that address unchanged and prints nothing: the trace
    is the one it was given. *)
Theorem parse_url_identity (url : string) (w : World) (t : list event) :
  Py.startswith url "http://" = true \/ Py.startswith url "https://" = true ->
  parse_url url w t = (Some url, t).
Proof.
  intros H. apply parse_url_valid. unfold has_scheme.
  destruct H as [-> | ->]; [reflexivity | apply orb_true_r].
Qed.

Lemma parse_url_identity_example :
  parse_url example_com (mock example_com (Body page_abc123) (Body manifest_a_b)) []
  = (Some example_com, []).
Proof. apply parse_url_identity. right. reflexivity. Defined.

(** C2. For every address that starts with neither [http://] nor
    [https://], the run prints the scheme message and nothing else, and
    makes no request: neither fetch happens. *)
Theorem scheme_error_no_fetch (url : string) (w : World) :
  Py.startswith url "http://" = false ->
  Py.startswith url "https://" = false ->
  run w (start url) = [Stdout (scheme_message +:+ Py.newline)]
  /\ requests (run w (start url)) = [].
Proof.
  intros H1 H2. rewrite run_start. unfold has_scheme. rewrite H1, H2.
  split; reflexivity.
Qed.

Lemma scheme_error_no_fetch_example :
  let w := mock example_com (Body page_abc123) (Body manifest_a_b) in
  run w (start "example.com") = [Stdout (scheme_message +:+ Py.newline)]
  /\ requests (run w (start "example.com")) = [].
Proof. apply scheme_error_no_fetch; reflexivity. Defined.

(** The page of a located path is not empty. *)
Lemma located_nonempty page p :
  get_build_manifest_path page = Some p -> exists c page', page = String c page'.
Proof. destruct page as [|c page']; [discriminate | eauto]. Qed.

(** C7. For every validated address and every located manifest path, the
    run makes two requests: the address, and the address followed directly
    by the located path. *)
Theorem manifest_url_is_concatenation (w : World) (url page p : string) :
  has_scheme url = true ->
  requests_get w url user_agent = Body page ->
  get_build_manifest_path page = Some p ->
  requests (run w (start url)) = [url; url +:+ p].
Proof.
  intros Hs Hpage Hp. rewrite run_start, Hs. unfold fetch_trace.
  rewrite Hpage. destruct (located_nonempty _ _ Hp) as (c & page' & ->).
  rewrite Hp. unfold report_trace. cbn [requests]. do 2 f_equal.
  destruct (requests_get w (url +:+ p) user_agent) as [[|d man]|e|e]; reflexivity.
Qed.

Lemma manifest_url_is_concatenation_example :
  requests (run (mock example_com (Body page_abc123) (Body manifest_a_b))
                (start example_com))
  = [example_com; example_com +:+ "/_next/static/abc123/_buildManifest.js"].
Proof.
  apply (manifest_url_is_concatenation _ _ page_abc123); reflexivity.
Defined.

(** C9. An empty body is treated like a failed fetch.  The driver's test
    cannot tell the empty string from [None]; after an empty page the run
    stops with the one request made and nothing printed, as it stops after a
    failed fetch, where only the fetcher's own diagnostic is printed; after
    an empty manifest it stops with the two requests made and no route list
    printed. *)
Theorem empty_body_is_failure (w : World) (url : string) :
  has_scheme url = true ->
  Py.truthy (Some EmptyString) = Py.truthy None
  /\ (requests_get w url user_agent = Body EmptyString ->
      run w (start url) = [Request url user_agent])
  /\ (forall e, requests_get w url user_agent = RequestException e ->
      run w (start url) =
      [Request url user_agent;
       Stdout (("Error when accessing the URL: " +:+ e) +:+ Py.newline)])
  /\ (forall page p,
      requests_get w url user_agent = Body page ->
      get_build_manifest_path page = Some p ->
      (requests_get w (url +:+ p) user_agent = Body EmptyString ->
       run w (start url) =
       [Request url user_agent; Request (url +:+ p) user_agent])
      /\ (forall e, requests_get w (url +:+ p) user_agent = RequestException e ->
       run w (start url) =
       [Request url user_agent; Request (url +:+ p) user_agent;
        Stdout (("Error accessing buildManifest content: " +:+ e) +:+ Py.newline)])).
Proof.
  intros Hs. rewrite run_start, Hs. unfold fetch_trace.
  split; [reflexivity|]. split; [|split].
  - intros ->. reflexivity.
  - intros e ->. reflexivity.
  - intros page p Hpage Hp. rewrite Hpage.
    destruct (located_nonempty _ _ Hp) as (c & page' & ->).
    rewrite Hp. unfold report_trace. split.
    + intros ->. reflexivity.
    + intros e ->. reflexivity.
Qed.

Lemma empty_body_is_failure_example :
  run (mock example_com (Body EmptyString) (Body manifest_a_b)) (start example_com)
  = [Request example_com user_agent]
  /\ run (mock example_com (Body page_abc123) (Body EmptyString)) (start example_com)
  = [Request example_com user_agent;
     Request (example_com +:+ "/_next/static/abc123/_buildManifest.js") user_agent].
Proof.
  split.
  - apply (empty_body_is_failure
             (mock example_com (Body EmptyString) (Body manifest_a_b)));
      reflexivity.
  - apply (empty_body_is_failure
             (mock example_com (Body page_abc123) (Body EmptyString))
             example_com eq_refl) with (page := page_abc123); reflexivity.
Defined.

(** C4. For every page text the locator returns the leftmost substring
    made of the fixed directory, one or more word or hyphen characters and
    the fixed file name, and returns it exactly; the page that refers to
    [/_next/static/abc123/_buildManifest.js] gives that very path. *)
Theorem locator_leftmost (page m : string) :
  (get_build_manifest_path page = Some m <->
   is_manifest_path m /\
   exists pre post, page = pre +:+ m +:+ post /\
     forall pre' m' post', is_manifest_path m' ->
       page = pre' +:+ m' +:+ post' ->
       String.length pre <= String.length pre')
  /\ get_build_manifest_path page_abc123
     = Some "/_next/static/abc123/_buildManifest.js".
Proof.
  split; [|reflexivity]. rewrite locator_Some. split.
  - intros (Hshape & pre & post & -> & Hleft). split; [exact Hshape|].
    exists pre, post. split; [reflexivity|].
    intros pre' m' post' Hshape' Heq.
    destruct (le_lt_dec (String.length pre) (String.length pre')) as [|Hlt];
      [assumption|].
    assert (Hm : match_at manifest_pattern (m' +:+ post')
                 = Some (mkMatch m' None)).
    { apply match_at_manifest_path. cbn [group0 group1]. eauto. }
    rewrite (Hleft pre' (m' +:+ post') Heq Hlt) in Hm. discriminate.
  - intros (Hshape & pre & post & -> & Hleft). split; [exact Hshape|].
    exists pre, post. split; [reflexivity|].
    intros pre' post' Heq Hlt.
    destruct (match_at manifest_pattern post') as [mm|] eqn:Hm; [|reflexivity].
    apply match_at_manifest_path in Hm as (Hshape' & _ & rest & ->).
    specialize (Hleft pre' (group0 mm) rest Hshape' Heq). lia.
Qed.

(** C10. Every extracted path is a non-empty string that begins with a
    slash and has only characters of the set of the route pattern; it holds
    no double quote and no white space. *)
Theorem extracted_paths_wellformed (text p : string) :
  p ∈ parse_build_manifest_content text ->
  p <> EmptyString /\ Py.startswith p "/" = true
  /\ Py.all_chars route_char p = true
  /\ Py.some_char (is_char Py.DQ) p = false
  /\ Py.some_char is_space p = false.
Proof.
  intros [Hr _]%extract_sound. unfold is_route in Hr.
  apply andb_true_iff in Hr as [[Hs Hl]%andb_true_iff Hall].
  split; [intros ->; discriminate Hs|]. split; [exact Hs|].
  split; [exact Hall|]. split.
  - apply (some_char_none route_char); [apply route_char_not_dquote | exact Hall].
  - apply (some_char_none route_char); [apply route_char_not_space | exact Hall].
Qed.

Lemma extracted_paths_wellformed_example :
  "/foo" <> EmptyString /\ Py.startswith "/foo" "/" = true
  /\ Py.all_chars route_char "/foo" = true
  /\ Py.some_char (is_char Py.DQ) "/foo" = false
  /\ Py.some_char is_space "/foo" = false.
Proof.
  apply (extracted_paths_wellformed manifest_foo_bar).
  apply (bool_decide_unpack _). vm_compute. exact I.
Defined.

(** C3 as stated fails where two literals share a quote: in
    the text of [chained_a_b] the literal [/b] stands between double quotes,
    and the extractor does not return it. *)
Lemma shared_quote_not_extracted :
  stated_route chained_a_b "/b"
  /\ "/b" ∉ parse_build_manifest_content chained_a_b.
Proof.
  split.
  - split; [|split; reflexivity].
    exists (quote +:+ "/a"), EmptyString. reflexivity.
  - apply (bool_decide_unpack _). vm_compute. exact I.
Qed.

(** A lone slash between double quotes is not extracted either: the pattern
    asks for a character after the slash. *)
Lemma lone_slash_not_extracted :
  stated_route (quoted "/") "/"
  /\ parse_build_manifest_content (quoted "/") = ∅.
Proof.
  split.
  - split; [|split; reflexivity]. exists EmptyString, EmptyString. reflexivity.
  - vm_compute. reflexivity.
Qed.

(** C3, amended. The extractor returns exactly the route literals (a slash
    followed by one or more characters of the set) that stand between two
    double quotes in the text at a place where the scan can take them: the
    row of route literals chained on shared quotes right before the opening
    quote has even length (none, when the opening quote closes no other
    literal).  Equal literals are one element: the manifest of
    [manifest_foo_bar] gives the set of [/foo] and [/bar]. *)
Theorem route_set_characterised (text p : string) :
  (p ∈ parse_build_manifest_content text <->
   exists pre post k,
     text = pre +:+ quoted p +:+ post /\ is_route p = true
     /\ chain pre k /\ Nat.even k = true)
  /\ parse_build_manifest_content manifest_foo_bar = {[ "/foo"; "/bar" ]}.
Proof. split; [apply extract_exact | vm_compute; reflexivity]. Qed.

(** A quoted route literal whose opening quote closes no other route
    literal is extracted. *)
Corollary unshared_quote_extracted (text pre p post : string) :
  text = pre +:+ quoted p +:+ post -> is_route p = true ->
  (forall pre' q, is_route q = true -> pre <> pre' +:+ quote +:+ q) ->
  p ∈ parse_build_manifest_content text.
Proof.
  intros Heq Hp Hfree. apply extract_exact. exists pre, post, 0.
  repeat split; try assumption. apply chain_stop.
  intros pre' q Hq Hpre. destruct (Hfree pre' q Hq Hpre).
Qed.

(** In the text of [chained_a_b] the row before [/b] is the one literal
    [/a]: its length is odd. *)
Example chain_before_b : chain (quote +:+ "/a") 1.
Proof.
  apply (chain_link 0 EmptyString "/a" 0); [reflexivity | simpl; lia |].
  apply chain_stop. intros [|] q _; discriminate.
Qed.

(** C5 as stated fails on the empty page: the
    locator finds nothing in it, yet the run stops before the locator is
    asked and prints nothing. *)
Lemma empty_page_prints_nothing :
  let w := mock example_com (Body EmptyString) (Body manifest_a_b) in
  get_build_manifest_path EmptyString = None
  /\ run w (start example_com) = [Request example_com user_agent]
  /\ stdout (run w (start example_com)) <> not_found_message +:+ Py.newline.
Proof. repeat split. discriminate. Qed.

(** C5, amended. For every page text without a manifest path the locator
    returns no match; when that text is not empty, the run prints the
    [wasn't found] message after the first request and makes no second
    request. *)
Theorem not_found_halts (w : World) (url page : string) :
  (forall pre m post, page = pre +:+ m +:+ post -> ~ is_manifest_path m) ->
  get_build_manifest_path page = None
  /\ (has_scheme url = true ->
      requests_get w url user_agent = Body page ->
      page <> EmptyString ->
      run w (start url) =
      [Request url user_agent; Stdout (not_found_message +:+ Py.newline)]).
Proof.
  intros Hno%locator_None. split; [exact Hno|].
  intros Hs Hpage Hne. rewrite run_start, Hs. unfold fetch_trace.
  rewrite Hpage. destruct page as [|c page']; [congruence|].
  rewrite Hno. reflexivity.
Qed.

Lemma not_found_halts_example :
  get_build_manifest_path page_plain = None
  /\ run (mock example_com (Body page_plain) (Body manifest_a_b)) (start example_com)
     = [Request example_com user_agent;
        Stdout (not_found_message +:+ Py.newline)].
Proof.
  assert (Hno : forall pre m post,
            page_plain = pre +:+ m +:+ post -> ~ is_manifest_path m).
  { apply locator_None. reflexivity. }
  split.
  - apply (not_found_halts
             (mock example_com (Body page_plain) (Body manifest_a_b))
             example_com page_plain Hno).
  - apply (not_found_halts
             (mock example_com (Body page_plain) (Body manifest_a_b))
             example_com page_plain Hno); [reflexivity | reflexivity | discriminate].
Defined.

(** A text in which no route literal stands between double quotes has no
    extracted path. *)
Lemma no_literal_no_path manifest :
  (forall pre p post, manifest = pre +:+ quoted p +:+ post -> is_route p = false) ->
  parse_build_manifest_content manifest = ∅.
Proof.
  intros Hno. apply set_eq. intros p. split; [|intros []%not_elem_of_empty].
  intros [Hp (pre & post & Heq)]%extract_sound.
  rewrite (Hno pre p post Heq) in Hp. discriminate.
Qed.

(** C6 as stated fails on the manifest [{}]: no path is extracted, and the last step still writes a line feed
    to standard output. *)
Lemma no_routes_still_prints :
  let w := mock example_com (Body page_abc123) (Body manifest_braces) in
  parse_build_manifest_content manifest_braces = ∅
  /\ stdout (run w (start example_com)) = Py.newline
  /\ stdout (run w (start example_com)) <> EmptyString.
Proof. repeat split. discriminate. Qed.

(** C6, amended. For every manifest text in which no route literal stands
    between double quotes the extractor returns the empty set; when that
    text is not empty, the last step prints the empty string: standard
    output receives one line feed and no route. *)
Theorem no_routes_prints_empty_line (manifest : string) :
  (forall pre p post, manifest = pre +:+ quoted p +:+ post -> is_route p = false) ->
  parse_build_manifest_content manifest = ∅
  /\ forall (w : World) (url page m : string),
      has_scheme url = true ->
      requests_get w url user_agent = Body page ->
      get_build_manifest_path page = Some m ->
      requests_get w (url +:+ m) user_agent = Body manifest ->
      manifest <> EmptyString ->
      run w (start url) =
      [Request url user_agent; Request (url +:+ m) user_agent;
       Stdout Py.newline].
Proof.
  intros Hno%no_literal_no_path. split; [exact Hno|].
  intros w url page m Hs Hpage Hm Hman Hne.
  rewrite run_start, Hs. unfold fetch_trace. rewrite Hpage.
  destruct (located_nonempty _ _ Hm) as (c & page' & ->). rewrite Hm.
  rewrite (report_trace_body _ _ _ Hman Hne), Hno, set_iter_empty.
  reflexivity.
Qed.

Lemma no_routes_prints_empty_line_example :
  parse_build_manifest_content manifest_braces = ∅
  /\ run (mock example_com (Body page_abc123) (Body manifest_braces))
         (start example_com)
     = [Request example_com user_agent;
        Request (example_com +:+ "/_next/static/abc123/_buildManifest.js")
                user_agent;
        Stdout Py.newline].
Proof.
  assert (Hno : forall pre p post,
            manifest_braces = pre +:+ quoted p +:+ post -> is_route p = false).
  { intros pre p post Heq. destruct (is_route p) eqn:Hp; [|reflexivity].
    assert (Hin : p ∈ parse_build_manifest_content manifest_braces).
    { apply elem_of_list_to_set.
      apply (findall_route_complete _ 0 pre p post Heq Hp); [lia|].
      intros pre' q Hq ->. destruct pre' as [|? [|? [|? ?]]]; discriminate Heq. }
    revert Hin. apply (bool_decide_unpack _). vm_compute. exact I. }
  split.
  - apply (no_routes_prints_empty_line manifest_braces Hno).
  - apply (proj2 (no_routes_prints_empty_line manifest_braces Hno)
             _ _ page_abc123);
      [reflexivity | reflexivity | reflexivity | reflexivity | discriminate].
Defined.

(** A page that holds a manifest path has a located path. *)
Lemma locator_finds pre m post :
  is_manifest_path m -> exists p, get_build_manifest_path (pre +:+ m +:+ post) = Some p.
Proof.
  intros Hshape.
  destruct (get_build_manifest_path (pre +:+ m +:+ post)) as [p|] eqn:Hp; [eauto|].
  destruct (proj1 (locator_None _) Hp pre m post eq_refl Hshape).
Qed.

(** C1. End to end: the address is [https://example.com], the page body
    holds [/_next/static/xyz/_buildManifest.js], and the request of the
    manifest URL (the address followed by the located path) is answered
    with the body that lists [/a] and [/b/[id]].  Standard output is then
    the two lines [/a] and [/b/[id]], in one order or the other, and
    nothing else. *)
Theorem end_to_end_example (w : World) (pre post : string) :
  requests_get w example_com user_agent
  = Body (pre +:+ "/_next/static/xyz/_buildManifest.js" +:+ post) ->
  (forall p,
     get_build_manifest_path
       (pre +:+ "/_next/static/xyz/_buildManifest.js" +:+ post) = Some p ->
     requests_get w (example_com +:+ p) user_agent = Body manifest_a_b) ->
  stdout (run w (start example_com))
  = "/a" +:+ Py.newline +:+ "/b/[id]" +:+ Py.newline
  \/ stdout (run w (start example_com))
     = "/b/[id]" +:+ Py.newline +:+ "/a" +:+ Py.newline.
Proof.
  intros Hpage Hman.
  assert (Hs : has_scheme example_com = true) by reflexivity.
  rewrite run_start, Hs. unfold fetch_trace. rewrite Hpage.
  destruct (locator_finds pre "/_next/static/xyz/_buildManifest.js" post)
    as [p Hp].
  { exists "xyz". repeat split. discriminate. }
  pose proof (Hman p Hp) as Hm.
  destruct (located_nonempty _ _ Hp) as (c & page' & Hc).
  rewrite Hc in Hp |- *. rewrite Hp.
  rewrite (report_trace_body w _ manifest_a_b Hm); [|discriminate].
  cbn [stdout]. rewrite app_nil_r.
  pose proof (set_iter_perm w (parse_build_manifest_content manifest_a_b)) as Hperm.
  replace (elements (parse_build_manifest_content manifest_a_b))
    with ["/a"; "/b/[id]"] in Hperm by (vm_compute; reflexivity).
  symmetry in Hperm. apply Permutation_length_2_inv in Hperm as [-> | ->].
  - left. reflexivity.
  - right. reflexivity.
Qed.

Lemma end_to_end_example_run :
  let w := site example_com (Body page_xyz)
             (example_com +:+ "/_next/static/xyz/_buildManifest.js")
             (Body manifest_a_b) in
  stdout (run w (start example_com))
  = "/a" +:+ Py.newline +:+ "/b/[id]" +:+ Py.newline
  \/ stdout (run w (start example_com))
     = "/b/[id]" +:+ Py.newline +:+ "/a" +:+ Py.newline.
Proof.
  apply (end_to_end_example
           (site example_com (Body page_xyz)
              (example_com +:+ "/_next/static/xyz/_buildManifest.js")
              (Body manifest_a_b))
           ("<script src=" +:+ quote) (String Py.DQ " defer></script>")).
  - reflexivity.
  - intros p Hp. vm_compute in Hp. injection Hp as <-. reflexivity.
Defined.

(** The manifest body counts only where the driver asks for it: when it is
    served at another URL than the address followed by the located path,
    the second request fails and no route is printed. *)
Lemma manifest_served_elsewhere :
  stdout (run (site example_com (Body page_xyz)
                 (example_com +:+ "/manifest.js") (Body manifest_a_b))
              (start example_com))
  = "Error accessing buildManifest content: 404 Client Error: Not Found"
    +:+ Py.newline.
Proof. vm_compute. reflexivity. Qed.

(** Both orders occur: the order of the lines is the order in which the
    world enumerates the set. *)
Lemma both_orders_occur :
  stdout (run (mock example_com (Body page_xyz) (Body manifest_a_b))
              (start example_com))
  = "/a" +:+ Py.newline +:+ "/b/[id]" +:+ Py.newline
  /\ stdout (run (mock_reversed example_com (Body page_xyz) (Body manifest_a_b))
                 (start example_com))
     = "/b/[id]" +:+ Py.newline +:+ "/a" +:+ Py.newline.
Proof. split; vm_compute; reflexivity. Qed.

End Pipeline.

(** ** Every run of the driver *)

Module Runs.

Import StringFacts Re ReFacts ThankUNext Spec PatternFacts DriverFacts.


(** X1. When the request of the address fails, the run prints the line
    [Error when accessing the URL: ] followed by the message of the
    exception, and stops: the address is the only request. *)
Theorem page_fetch_error_halts (w : World) (url e : string) :
  has_scheme url = true ->
  requests_get w url user_agent = RequestException e ->
  run w (start url) =
  [Request url user_agent;
   Stdout (("Error when accessing the URL: " +:+ e) +:+ Py.newline)].
Proof.
  intros Hs He. rewrite run_start, Hs. unfold fetch_trace. rewrite He.
  reflexivity.
Qed.

Lemma page_fetch_error_halts_example :
  run (mock example_com (RequestException "timed out") (Body manifest_a_b))
      (start example_com)
  = [Request example_com user_agent;
     Stdout (("Error when accessing the URL: " +:+ "timed out") +:+ Py.newline)].
Proof. apply page_fetch_error_halts; reflexivity. Defined.

(** X2. When the request of the manifest fails, the run prints the line
    [Error accessing buildManifest content: ] followed by the message of
    the exception, and no route. *)
Theorem manifest_fetch_error_halts (w : World) (url page p e : string) :
  has_scheme url = true ->
  requests_get w url user_agent = Body page ->
  get_build_manifest_path page = Some p ->
  requests_get w (url +:+ p) user_agent = RequestException e ->
  run w (start url) =
  [Request url user_agent; Request (url +:+ p) user_agent;
   Stdout (("Error accessing buildManifest content: " +:+ e) +:+ Py.newline)].
Proof.
  intros Hs Hpage Hp He. rewrite run_start, Hs. unfold fetch_trace.
  rewrite Hpage. destruct page as [|c page']; [discriminate Hp|].
  rewrite Hp. unfold report_trace. rewrite He. reflexivity.
Qed.

Lemma manifest_fetch_error_halts_example :
  run (mock example_com (Body page_abc123) (RequestException "404 Not Found"))
      (start example_com)
  = [Request example_com user_agent;
     Request (example_com +:+ "/_next/static/abc123/_buildManifest.js")
             user_agent;
     Stdout (("Error accessing buildManifest content: " +:+ "404 Not Found")
             +:+ Py.newline)].
Proof.
  apply (manifest_fetch_error_halts _ _ page_abc123); reflexivity.
Defined.

(** X3. Every run is made of its requests, each sent with the header
    [user-agent: thankunext/1.0], followed by at most one write to standard
    output: nothing is requested after something was printed, and a
    diagnostic and a route list never come together. *)
Theorem requests_then_one_print (w : World) (url : string) :
  run w (start url)
  = map (fun u => Request u user_agent) (requests (run w (start url)))
    ++ map Stdout (prints (run w (start url)))
  /\ length (prints (run w (start url))) <= 1.
Proof.
  rewrite run_start. destruct (has_scheme url); [|split; [reflexivity | simpl; lia]].
  unfold fetch_trace.
  destruct (requests_get w url user_agent) as [[|c page]|e|e];
    try (split; [reflexivity | simpl; lia]).
  destruct (get_build_manifest_path (String c page)) as [p|];
    [|split; [reflexivity | simpl; lia]].
  unfold report_trace.
  destruct (requests_get w (url +:+ p) user_agent) as [[|d man]|e|e];
    split; (reflexivity || (simpl; lia)).
Qed.

(** X4. A run requests nothing when the address has no scheme prefix;
    otherwise it requests the address and, at most, one more URL, which is
    the address followed by a manifest path.  No other URL is ever
    requested. *)
Theorem requests_shape (w : World) (url : string) :
  (has_scheme url = false /\ requests (run w (start url)) = [])
  \/ (has_scheme url = true /\
      (requests (run w (start url)) = [url]
       \/ exists p, is_manifest_path p
            /\ requests (run w (start url)) = [url; url +:+ p])).
Proof.
  rewrite run_start. destruct (has_scheme url); [right | left; auto].
  split; [reflexivity|]. unfold fetch_trace.
  destruct (requests_get w url user_agent) as [[|c page]|e|e];
    try (left; reflexivity).
  destruct (get_build_manifest_path (String c page)) as [p|] eqn:Hp;
    [|left; reflexivity].
  right. exists p. split; [apply (manifest_path_shape _ _ Hp)|].
  unfold report_trace.
  destruct (requests_get w (url +:+ p) user_agent) as [[|d man]|e|e]; reflexivity.
Qed.


Lemma count_char_none (cls : ascii -> bool) (c : ascii) (s : string) :
  cls c = false -> Py.all_chars cls s = true -> count_char c s = 0.
Proof.
  intros Hc. induction s as [|d s IH]; [reflexivity|]. simpl.
  intros [Hd Hs]%andb_true_iff. rewrite (IH Hs).
  destruct (Ascii.eqb_spec c d) as [->|_]; [congruence | reflexivity].
Qed.

Lemma split_piece (sep : ascii) (w rest : string) :
  count_char sep w = 0 ->
  split sep (w +:+ String sep rest) = w :: split sep rest.
Proof.
  induction w as [|c w IH]; intros Hw.
  - rewrite app_nil_l. simpl. rewrite Ascii.eqb_refl. reflexivity.
  - simpl in Hw. rewrite app_cons. simpl.
    destruct (Ascii.eqb_spec sep c) as [->|Hne]; [discriminate Hw|].
    rewrite (proj2 (Ascii.eqb_neq c sep)) by congruence.
    rewrite IH by exact Hw. reflexivity.
Qed.

(** Lines joined by line feeds and closed by one split back into the
    lines, and the empty piece after the last line feed. *)
Lemma split_join_lines (l : list string) :
  l <> [] -> Forall (fun p => count_char Py.LF p = 0) l ->
  split Py.LF (Py.join Py.newline l +:+ Py.newline) = l ++ [EmptyString].
Proof.
  induction l as [|x l IH]; [congruence|]. intros _ Hall.
  apply Forall_cons in Hall as [Hx Hl]. destruct l as [|y l].
  - cbn [Py.join String.concat app]. unfold Py.newline.
    rewrite (split_piece _ _ _ Hx). reflexivity.
  - change (Py.join Py.newline (x :: y :: l))
      with (x +:+ Py.newline +:+ Py.join Py.newline (y :: l)).
    rewrite !app_assoc. unfold Py.newline at 1. rewrite app_cons, app_nil_l.
    rewrite (split_piece _ _ _ Hx), IH by (congruence || assumption).
    reflexivity.
Qed.

(** X6. When both requests are answered with a non-empty body, standard
    output is the extracted paths in the order the world enumerates the
    set, joined by line feeds, and one closing line feed; when there is a
    path, splitting the output at line feeds gives back the paths, each
    once, and the empty piece after the last line feed. *)
Theorem report_lines (w : World) (url page p manifest : string) :
  has_scheme url = true ->
  requests_get w url user_agent = Body page ->
  get_build_manifest_path page = Some p ->
  requests_get w (url +:+ p) user_agent = Body manifest ->
  manifest <> EmptyString ->
  set_iter w (parse_build_manifest_content manifest)
    ≡ₚ elements (parse_build_manifest_content manifest)
  /\ stdout (run w (start url))
     = Py.join Py.newline (set_iter w (parse_build_manifest_content manifest))
       +:+ Py.newline
  /\ (parse_build_manifest_content manifest <> ∅ ->
      split Py.LF (stdout (run w (start url)))
      = set_iter w (parse_build_manifest_content manifest) ++ [EmptyString]).
Proof.
  intros Hs Hpage Hp Hman Hne.
  pose proof (set_iter_perm w (parse_build_manifest_content manifest)) as Hperm.
  assert (Hout : stdout (run w (start url))
                 = Py.join Py.newline
                     (set_iter w (parse_build_manifest_content manifest))
                   +:+ Py.newline).
  { rewrite run_start, Hs. unfold fetch_trace. rewrite Hpage.
    destruct page as [|c page']; [discriminate Hp|]. rewrite Hp.
    rewrite (report_trace_body _ _ _ Hman Hne). cbn [stdout].
    apply app_nil_r. }
  split; [exact Hperm|]. split; [exact Hout|].
  intros Hsome. rewrite Hout. apply split_join_lines.
  - intros Hnil. rewrite Hnil in Hperm. symmetry in Hperm.
    apply Permutation_nil_r in Hperm. apply elements_empty_inv in Hperm.
    apply Hsome. apply leibniz_equiv, Hperm.
  - apply Forall_forall. intros q Hq. rewrite Hperm in Hq.
    apply elem_of_elements, extract_sound in Hq as [Hr _].
    unfold is_route in Hr. apply andb_true_iff in Hr as [_ Hall].
    apply (count_char_none route_char); [reflexivity | exact Hall].
Qed.

Lemma report_lines_example :
  let w := mock example_com (Body page_abc123) (Body manifest_foo_bar) in
  set_iter w (parse_build_manifest_content manifest_foo_bar)
    ≡ₚ elements (parse_build_manifest_content manifest_foo_bar)
  /\ stdout (run w (start example_com))
     = Py.join Py.newline (set_iter w (parse_build_manifest_content manifest_foo_bar))
       +:+ Py.newline
  /\ (parse_build_manifest_content manifest_foo_bar <> ∅ ->
      split Py.LF (stdout (run w (start example_com)))
      = set_iter w (parse_build_manifest_content manifest_foo_bar)
        ++ [EmptyString]).
Proof.
  apply (report_lines _ _ page_abc123 "/_next/static/abc123/_buildManifest.js");
    [reflexivity | reflexivity | reflexivity | reflexivity | discriminate].
Defined.

(** X7. The manifest URL is not normalised: for an address that ends with
    a slash, the second request has a double slash where the address and
    the located path meet. *)
Theorem trailing_slash_doubles (w : World) (base page p : string) :
  has_scheme (base +:+ "/") = true ->
  requests_get w (base +:+ "/") user_agent = Body page ->
  get_build_manifest_path page = Some p ->
  exists p', p = "/" +:+ p'
    /\ requests (run w (start (base +:+ "/")))
       = [base +:+ "/"; base +:+ "//" +:+ p'].
Proof.
  intros Hs Hpage Hp.
  destruct (manifest_path_shape _ _ Hp) as (tok & Hshape & _).
  exists ("_next/static/" +:+ tok +:+ manifest_suffix).
  split; [rewrite Hshape; reflexivity|].
  rewrite run_start, Hs. unfold fetch_trace. rewrite Hpage.
  destruct page as [|c page']; [discriminate Hp|]. rewrite Hp.
  unfold report_trace. cbn [requests].
  replace (requests _) with (@nil string)
    by (destruct (requests_get w ((base +:+ "/") +:+ p) user_agent)
          as [[|d man]|e|e]; reflexivity).
  rewrite Hshape. do 2 f_equal. rewrite !app_assoc. reflexivity.
Qed.

Lemma trailing_slash_doubles_example :
  exists p', "/_next/static/abc123/_buildManifest.js" = "/" +:+ p'
    /\ requests (run (mock "https://example.com/" (Body page_abc123)
                           (Body manifest_a_b))
                     (start ("https://example.com" +:+ "/")))
       = ["https://example.com" +:+ "/"; "https://example.com" +:+ "//" +:+ p'].
Proof.
  apply (trailing_slash_doubles _ "https://example.com" page_abc123);
    reflexivity.
Defined.

End Runs.

(** ** The locator *)

Module Locator.

Import StringFacts Re ReFacts ThankUNext Spec PatternFacts DriverFacts Runs.

Lemma count_char_app (c : ascii) (a b : string) :
  count_char c (a +:+ b) = count_char c a + count_char c b.
Proof.
  induction a as [|d a IH]; [reflexivity|].
  rewrite app_cons. simpl. rewrite IH. lia.
Qed.

Lemma some_char_app (cls : ascii -> bool) (a b : string) :
  Py.some_char cls (a +:+ b) = Py.some_char cls a || Py.some_char cls b.
Proof.
  induction a as [|d a IH]; [reflexivity|].
  rewrite app_cons. simpl. rewrite IH. apply orb_assoc.
Qed.

Lemma token_no_slash (tok : string) :
  Py.all_chars token_char tok = true -> count_char "/" tok = 0.
Proof. apply count_char_none. reflexivity. Qed.

(** A manifest path has four slashes: the token holds none. *)
Lemma manifest_path_slashes (m : string) :
  is_manifest_path m -> count_char "/" m = 4.
Proof.
  intros (tok & -> & _ & Hall). rewrite !count_char_app, (token_no_slash _ Hall).
  reflexivity.
Qed.

Lemma manifest_path_starts (m : string) :
  is_manifest_path m -> exists m', m = String "/" m'.
Proof. intros (tok & -> & _). eexists. reflexivity. Qed.

Lemma token_char_plain c :
  token_char c = true -> is_space c = false /\ is_char Py.DQ c = false.
Proof. destruct c as [[] [] [] [] [] [] [] []]; vm_compute; auto; discriminate. Qed.

(** X8. The locator applied to a path it has located returns that path. *)
Theorem locator_idempotent (page p : string) :
  get_build_manifest_path page = Some p ->
  get_build_manifest_path p = Some p.
Proof.
  intros Hshape%manifest_path_shape. apply locator_Some.
  split; [exact Hshape|]. exists EmptyString, EmptyString.
  split; [rewrite app_nil_l, app_nil_r; reflexivity|].
  intros pre' post' _ Hlt. simpl in Hlt. lia.
Qed.

Lemma locator_idempotent_example :
  get_build_manifest_path "/_next/static/abc123/_buildManifest.js"
  = Some "/_next/static/abc123/_buildManifest.js".
Proof. apply (locator_idempotent page_abc123). reflexivity. Defined.

(** X9. The located path depends on the page up to the end of the first
    match only: whatever text follows the match instead, the locator
    returns the same path. *)
Theorem locator_ignores_later_text (page p : string) :
  get_build_manifest_path page = Some p ->
  exists pre post, page = pre +:+ p +:+ post
    /\ forall post', get_build_manifest_path (pre +:+ p +:+ post') = Some p.
Proof.
  intros (Hshape & pre & post & -> & Hleft)%locator_Some.
  exists pre, post. split; [reflexivity|]. intros post'.
  apply locator_Some. split; [exact Hshape|].
  exists pre, post'. split; [reflexivity|].
  intros pre' post'' Heq Hlt.
  destruct (match_at manifest_pattern post'') as [mm|] eqn:Hm; [|reflexivity].
  apply match_at_manifest_path in Hm as (Hshape' & _ & rest' & ->).
  symmetry in Heq.
  destruct (app_eq_le _ _ _ _ Heq) as (a & -> & Ha); [lia|].
  rewrite length_app in Hlt.
  rewrite <- app_assoc in Ha.
  destruct (le_lt_dec (String.length (group0 mm)) (String.length (a +:+ p)))
    as [Hle | Hgt].
  - destruct (app_eq_le _ _ _ _ Ha Hle) as (z & Hz & _).
    assert (Hm : match_at manifest_pattern (group0 mm +:+ z +:+ post)
                 = Some (mkMatch (group0 mm) None)).
    { apply match_at_manifest_path. cbn [group0 group1]. eauto. }
    rewrite (Hleft pre' (group0 mm +:+ z +:+ post)) in Hm;
      [discriminate Hm | | rewrite length_app; lia].
    rewrite <- (app_assoc (group0 mm)), <- Hz, !app_assoc. reflexivity.
  - symmetry in Ha. destruct (app_eq_le _ _ _ _ Ha) as (b & Hb & _); [lia|].
    pose proof (manifest_path_slashes _ Hshape') as H4.
    rewrite Hb, !count_char_app, (manifest_path_slashes _ Hshape) in H4.
    destruct (manifest_path_starts _ Hshape') as [m' Hm'].
    rewrite Hm' in Hb. destruct a as [|d a]; [simpl in Hlt; lia|].
    rewrite !app_cons in Hb. injection Hb as <- _.
    simpl in H4. lia.
Qed.

Lemma locator_ignores_later_text_example :
  exists pre post, page_abc123 = pre +:+ "/_next/static/abc123/_buildManifest.js" +:+ post
    /\ forall post', get_build_manifest_path
                       (pre +:+ "/_next/static/abc123/_buildManifest.js" +:+ post')
                     = Some "/_next/static/abc123/_buildManifest.js".
Proof. apply locator_ignores_later_text. reflexivity. Defined.

(** X10. A located path starts with the directory [/_next/static/], ends
    with the file name [/_buildManifest.js], has exactly four slashes (its
    token is one path segment), is at least 33 characters long and holds no
    white space and no double quote. *)
Theorem located_path_shape (page p : string) :
  get_build_manifest_path page = Some p ->
  Py.startswith p manifest_prefix = true
  /\ (exists head, p = head +:+ manifest_suffix)
  /\ count_char "/" p = 4
  /\ 33 <= String.length p
  /\ Py.some_char is_space p = false
  /\ Py.some_char (is_char Py.DQ) p = false.
Proof.
  intros Hshape%manifest_path_shape.
  pose proof (manifest_path_slashes _ Hshape) as H4.
  destruct Hshape as (tok & -> & Hne & Hall).
  split; [apply prefix_app; eauto|].
  split; [exists (manifest_prefix +:+ tok); symmetry; apply app_assoc|].
  split; [exact H4|]. split.
  - rewrite !length_app. destruct tok; [congruence | simpl; lia].
  - rewrite !some_char_app.
    rewrite (some_char_none token_char is_space tok), (some_char_none token_char (is_char Py.DQ) tok);
      try exact Hall; try (intros c Hc; apply (token_char_plain c Hc)).
    split; reflexivity.
Qed.

Lemma located_path_shape_example :
  let p := "/_next/static/abc123/_buildManifest.js" in
  Py.startswith p manifest_prefix = true
  /\ (exists head, p = head +:+ manifest_suffix)
  /\ count_char "/" p = 4
  /\ 33 <= String.length p
  /\ Py.some_char is_space p = false
  /\ Py.some_char (is_char Py.DQ) p = false.
Proof. apply (located_path_shape page_abc123). reflexivity. Defined.

End Locator.

(** ** The extractor *)

Module Extractor.

Import StringFacts Re ReFacts ThankUNext Spec PatternFacts ScanFacts Runs Locator.

(** After the characters of the last match are skipped, the scan goes on
    with the text that follows them. *)
Lemma findall_from_skip r (a rest : string) :
  findall_from r (String.length a) (a +:+ rest) = findall_from r 0 rest.
Proof.
  induction a as [|c a IH]; [destruct rest; reflexivity|].
  rewrite app_cons. simpl. exact IH.
Qed.

Lemma match_at_not_quote c rest :
  c <> Py.DQ -> match_at route_pattern (String c rest) = None.
Proof.
  intros Hc.
  destruct (match_at route_pattern (String c rest)) as [m|] eqn:Hm; [|reflexivity].
  apply match_at_route in Hm as (p & rest' & Heq & _).
  unfold quoted, quote in Heq. rewrite !app_assoc, app_cons in Heq.
  injection Heq as -> _. congruence.
Qed.

(** A character other than the double quote starts no match. *)
Lemma findall_skip_char c rest :
  c <> Py.DQ ->
  findall route_pattern (String c rest) = findall route_pattern rest.
Proof.
  intros Hc. unfold findall. cbn [findall_from].
  rewrite (match_at_not_quote _ _ Hc). reflexivity.
Qed.

(** A route literal between double quotes at the start of the text is the
    first entry of the scan, which goes on after the closing quote. *)
Lemma findall_quoted (p rest : string) :
  is_route p = true ->
  findall route_pattern (quoted p +:+ rest) = p :: findall route_pattern rest.
Proof.
  intros Hp. unfold findall.
  replace (quoted p +:+ rest) with (String Py.DQ ((p +:+ quote) +:+ rest))
    by (unfold quoted, quote; rewrite !app_assoc; reflexivity).
  cbn [findall_from].
  replace (String Py.DQ ((p +:+ quote) +:+ rest))
    with (quote +:+ p +:+ quote +:+ rest)
    by (unfold quote; rewrite !app_assoc; reflexivity).
  rewrite (match_at_quoted _ _ Hp). cbn [item group1 group0]. f_equal.
  rewrite length_quoted.
  replace (S (S (String.length p)) - 1) with (String.length (p +:+ quote))
    by (rewrite length_app; unfold quote; simpl; lia).
  apply findall_from_skip.
Qed.

(** X11. The first route literal between double quotes that comes after
    text free of double quotes is the first entry of the scan, and the scan
    goes on after its closing quote: that quote cannot open the next
    match. *)
Theorem leading_literal_taken (pre p rest : string) :
  no_quote pre = true -> is_route p = true ->
  findall route_pattern (pre +:+ quoted p +:+ rest)
  = p :: findall route_pattern rest.
Proof.
  intros Hpre Hp. induction pre as [|c pre IH].
  - rewrite app_nil_l. apply (findall_quoted _ _ Hp).
  - unfold no_quote in Hpre. simpl in Hpre.
    apply andb_true_iff in Hpre as [Hc Hpre]. rewrite app_cons.
    rewrite findall_skip_char.
    + apply IH, Hpre.
    + intros ->. discriminate Hc.
Qed.

Lemma leading_literal_taken_example :
  findall route_pattern ("[ " +:+ quoted "/a" +:+ "/b" +:+ quote)
  = "/a" :: findall route_pattern ("/b" +:+ quote).
Proof. apply leading_literal_taken; reflexivity. Defined.

(** The scan over the entries of an array, up to the closing bracket. *)
Lemma findall_entries (l : list string) :
  Forall (fun r => is_route r = true) l ->
  findall route_pattern (Py.join "," (map quoted l) +:+ "]") = l.
Proof.
  induction l as [|x l IH]; [reflexivity|].
  intros [Hx Hl]%Forall_cons. destruct l as [|y l].
  - cbn [map Py.join String.concat]. rewrite (findall_quoted _ _ Hx).
    reflexivity.
  - change (Py.join "," (map quoted (x :: y :: l)))
      with (quoted x +:+ "," +:+ Py.join "," (map quoted (y :: l))).
    rewrite !app_assoc, (findall_quoted _ _ Hx).
    change ("," +:+ Py.join "," (map quoted (y :: l)) +:+ "]")
      with (String "," (Py.join "," (map quoted (y :: l)) +:+ "]")).
    rewrite findall_skip_char by discriminate. rewrite (IH Hl). reflexivity.
Qed.

(** X12. The extractor reads back a JSON array of routes: for every list of
    route literals, the scan of the array written with them gives the list
    itself, in order and with its repetitions, and the extractor gives the
    set of its elements. *)
Theorem json_array_round_trip (l : list string) :
  Forall (fun r => is_route r = true) l ->
  findall route_pattern (json_array l) = l
  /\ parse_build_manifest_content (json_array l) = list_to_set l.
Proof.
  intros Hl.
  assert (H : findall route_pattern (json_array l) = l).
  { unfold json_array.
    change ("[" +:+ Py.join "," (map quoted l) +:+ "]")
      with (String "[" (Py.join "," (map quoted l) +:+ "]")).
    rewrite findall_skip_char by discriminate. apply (findall_entries _ Hl). }
  split; [exact H|]. unfold parse_build_manifest_content. rewrite H. reflexivity.
Qed.

Lemma json_array_round_trip_example :
  findall route_pattern (json_array ["/a"; "/b/[id]"; "/a"]) = ["/a"; "/b/[id]"; "/a"]
  /\ parse_build_manifest_content (json_array ["/a"; "/b/[id]"; "/a"])
     = list_to_set ["/a"; "/b/[id]"; "/a"].
Proof.
  apply json_array_round_trip. repeat constructor.
Defined.

(** A text free of [c] that starts [a] followed by [c] is a prefix of [a]. *)
Lemma prefix_before_sep c (x : string) : forall a b rest,
  count_char c x = 0 -> a +:+ String c b = x +:+ rest ->
  exists z, a = x +:+ z.
Proof.
  induction x as [|d x IH]; intros a b rest Hx Heq.
  - exists a. reflexivity.
  - simpl in Hx. destruct (Ascii.eqb_spec c d) as [->|Hne]; [discriminate Hx|].
    destruct a as [|e a].
    + rewrite app_nil_l, app_cons in Heq. injection Heq as -> _. congruence.
    + rewrite !app_cons in Heq. injection Heq as -> Heq.
      destruct (IH a b rest Hx Heq) as [z ->]. exists z. reflexivity.
Qed.

Lemma quoted_free c p :
  c <> Py.DQ -> route_char c = false -> is_route p = true ->
  count_char c (quoted p) = 0.
Proof.
  intros Hc Hr Hp. unfold quoted, quote. rewrite !count_char_app.
  unfold is_route in Hp. apply andb_true_iff in Hp as [_ Hall].
  rewrite (count_char_none route_char c p Hr Hall). simpl.
  destruct (Ascii.eqb_spec c Py.DQ); [congruence | reflexivity].
Qed.

(** No match reaches across a character that is neither the double quote
    nor in the set. *)
Lemma match_at_before_sep c a b :
  c <> Py.DQ -> route_char c = false ->
  match_at route_pattern (a +:+ String c b) = match_at route_pattern a.
Proof.
  intros Hc Hr.
  destruct (match_at route_pattern a) as [m|] eqn:Ha.
  - apply match_at_route in Ha as (p & rest & -> & Hp & ->).
    apply match_at_route. exists p, (rest +:+ String c b).
    rewrite app_assoc. auto.
  - destruct (match_at route_pattern (a +:+ String c b)) as [m|] eqn:Hab;
      [|reflexivity].
    apply match_at_route in Hab as (p & rest & Heq & Hp & ->).
    destruct (prefix_before_sep c _ _ _ _ (quoted_free _ _ Hc Hr Hp) Heq)
      as [z ->].
    assert (Ha' : match_at route_pattern (quoted p +:+ z)
                  = Some (mkMatch (quoted p) (Some p))).
    { apply match_at_route. exists p, z. auto. }
    congruence.
Qed.

Lemma findall_from_sep c b : c <> Py.DQ -> route_char c = false ->
  forall a skip, skip <= String.length a ->
  findall_from route_pattern skip (a +:+ String c b)
  = findall_from route_pattern skip a ++ findall_from route_pattern 0 b.
Proof.
  intros Hc Hr. induction a as [|d a IH]; intros skip Hskip.
  - simpl in Hskip. replace skip with 0 by lia. rewrite app_nil_l.
    cbn [findall_from]. rewrite match_at_route_nil, (match_at_not_quote _ _ Hc).
    reflexivity.
  - destruct skip as [|n].
    + rewrite app_cons. cbn [findall_from]. rewrite <- app_cons.
      rewrite (match_at_before_sep _ _ _ Hc Hr).
      destruct (match_at route_pattern (String d a)) as [m|] eqn:Hm.
      * cbn [app]. f_equal. apply IH.
        apply match_at_route in Hm as (p & rest & Heq & _ & ->).
        cbn [group0]. apply (f_equal String.length) in Heq.
        rewrite length_app in Heq. cbn [String.length] in Heq. lia.
      * apply IH. lia.
    + rewrite app_cons. cbn [findall_from]. apply IH. simpl in Hskip. lia.
Qed.

(** X13. A character that is neither a double quote nor in the set of the
    route pattern (a line feed, a comma, a space) cuts the text in two for
    the extractor: the scan of the whole text is the scan of the part
    before it followed by the scan of the part after it, and the extracted
    set is the union of the two sets. *)
Theorem separator_splits_extraction (c : ascii) (a b : string) :
  c <> Py.DQ -> route_char c = false ->
  findall route_pattern (a +:+ String c b)
  = findall route_pattern a ++ findall route_pattern b
  /\ parse_build_manifest_content (a +:+ String c b)
     = parse_build_manifest_content a ∪ parse_build_manifest_content b.
Proof.
  intros Hc Hr.
  assert (H : findall route_pattern (a +:+ String c b)
              = findall route_pattern a ++ findall route_pattern b).
  { apply (findall_from_sep c b Hc Hr a 0). lia. }
  split; [exact H|]. unfold parse_build_manifest_content.
  rewrite H. apply list_to_set_app_L.
Qed.

Lemma separator_splits_extraction_example :
  findall route_pattern (quoted "/a" +:+ String Py.LF (quoted "/b"))
  = findall route_pattern (quoted "/a") ++ findall route_pattern (quoted "/b")
  /\ parse_build_manifest_content (quoted "/a" +:+ String Py.LF (quoted "/b"))
     = parse_build_manifest_content (quoted "/a")
       ∪ parse_build_manifest_content (quoted "/b").
Proof. apply separator_splits_extraction; [discriminate | reflexivity]. Defined.

Lemma findall_from_count s : forall skip, skip <= String.length s ->
  4 * length (findall_from route_pattern skip s) + skip <= String.length s.
Proof.
  induction s as [|c s IH]; intros skip Hskip.
  - simpl in Hskip. replace skip with 0 by lia. cbn [findall_from].
    rewrite match_at_route_nil. simpl. lia.
  - destruct skip as [|n]; cbn [findall_from].
    + destruct (match_at route_pattern (String c s)) as [m|] eqn:Hm.
      * apply match_at_route in Hm as (p & rest & Heq & Hp & ->).
        cbn [group0]. apply (f_equal String.length) in Heq.
        rewrite length_app, length_quoted in Heq. cbn [String.length] in Heq.
        assert (Hl : 2 <= String.length p).
        { unfold is_route in Hp.
          apply andb_true_iff in Hp as [[_ Hl%Nat.ltb_lt]%andb_true_iff _]. lia. }
        rewrite length_quoted.
        specialize (IH (S (S (String.length p)) - 1)).
        cbn [length String.length]. lia.
      * specialize (IH 0). cbn [String.length]. lia.
    + specialize (IH n). cbn [String.length] in Hskip |- *. lia.
Qed.

Lemma size_list_to_set_le (l : list string) :
  size (list_to_set l : gset string) <= length l.
Proof.
  induction l as [|x l IH]; [rewrite list_to_set_nil, size_empty; lia|].
  rewrite list_to_set_cons, size_union_alt, size_singleton. simpl.
  pose proof (subseteq_size (list_to_set l ∖ {[x]}) (list_to_set l : gset string))
    as Hsub.
  assert (Hs : list_to_set l ∖ {[x]} ⊆ (list_to_set l : gset string)).
  { intros y [Hy _]%elem_of_difference. exact Hy. }
  specialize (Hsub Hs). lia.
Qed.

(** X14. A match takes at least four characters of the text (two quotes,
    the slash, one more character) and matches do not overlap: the scan
    lists at most a quarter as many entries as the text has characters,
    and so does the extracted set. *)
Theorem route_count_bound (text : string) :
  4 * length (findall route_pattern text) <= String.length text
  /\ 4 * size (parse_build_manifest_content text) <= String.length text.
Proof.
  pose proof (findall_from_count text 0) as H. unfold findall.
  assert (Hl : 4 * length (findall_from route_pattern 0 text)
               <= String.length text) by lia.
  split; [exact Hl|]. unfold parse_build_manifest_content, findall.
  pose proof (size_list_to_set_le (findall_from route_pattern 0 text)). lia.
Qed.

End Extractor.
